(** * World capital quiz: the round state machine of [src/App.tsx]

    A shallow embedding of the quiz component: the question generator,
    the scoring tables, the answer and timer handlers, the timer effect
    and the high-score store, followed by the properties of the
    specification that concern them.

    Conventions of the embedding.
    - Integer-valued JavaScript numbers (score, hearts, combo, question
      number, seconds left) are [Z]; the three multipliers and the
      product that is floored are IEEE-754 binary64 values, computed with
      the operations of [SpecFloat] at precision 53.
    - React state is one record [State]; a handler runs against the
      committed state and its [setX] calls are applied in program order
      (a functional updater [setX(prev => ...)] reads the field as the
      earlier calls left it).  The two refs [timerRef] and
      [timeoutHandledRef] are fields of the same record.
    - The interval callback [tick] is created by the timer effect and
      runs only while the interval is active; the effect is run again
      whenever one of the values the callback captured changes, so the
      callback too is modelled as reading the state.
    - [Math.random] is an explicit argument: a fraction in [0,1) for the
      index draw, and for [sort(() => Math.random() - 0.5)] a function
      that returns some permutation of its argument.
    - [localStorage] is a finite map from keys to strings together with
      two flags saying whether an access throws.
    - [setTimeout] callbacks are kept in the field [scheduled]; sounds
      and the browser history are not modelled. *)

From Stdlib Require Import ZArith QArith Qround Lia.
From Stdlib Require Import Floats.SpecFloat.
From Stdlib Require Import Ascii String Numbers.DecimalString.
From Stdlib Require Import Numbers.DecimalPos.
From stdpp Require Import gmap strings list.

Local Open Scope Z_scope.

(** ** Types of the component *)

Inductive Screen := main | difficulty | game | gameOver | help.

Inductive Difficulty := easy | medium | hard.

#[global] Instance Screen_eq_dec : EqDecision Screen.
Proof. solve_decision. Defined.

#[global] Instance Difficulty_eq_dec : EqDecision Difficulty.
Proof. solve_decision. Defined.

(** [interface CountryCapital]; the tag [difficulty] is optional. *)
Module CountryCapital.
Record t := mk {
  country : string;
  capital : string;
  difficulty : option Difficulty
}.
End CountryCapital.

(** [interface Question]. *)
Module Question.
Record t := mk {
  country : string;
  capital : string;
  options : list string;
  difficulty : option Difficulty
}.
End Question.

(** ** binary64 arithmetic *)

Definition prec : Z := 53.
Definition emax : Z := 1024.

Definition f64 := spec_float.

Definition f64_of_Z (z : Z) : f64 := binary_normalize prec emax z 0 false.

Definition f64_mul : f64 -> f64 -> f64 := SFmul prec emax.

(** The value of the decimal literal [n.d], that is [n + d/10] rounded
    to the nearest binary64 number. *)
Definition f64_literal (n d : Z) : f64 :=
  SFdiv prec emax (f64_of_Z (10 * n + d)) (f64_of_Z 10).

(** [Math.floor] on a finite value, as an integer.  The scoring tables
    only produce finite values ([finalPoints_finite] below); the other
    cases are given 0 here. *)
Definition Math_floor (x : f64) : Z :=
  match x with
  | S754_finite s m e =>
      let n := if s then Z.neg m else Z.pos m in
      if 0 <=? e then n * 2 ^ e else n / 2 ^ (- e)
  | _ => 0
  end.

(** The rational a finite binary64 value stands for. *)
Definition f64_to_Q (x : f64) : Q :=
  match x with
  | S754_finite s m e =>
      let n := if s then Z.neg m else Z.pos m in
      if 0 <=? e then inject_Z (n * 2 ^ e)
      else Qmake n (Z.to_pos (2 ^ (- e)))
  | _ => 0%Q
  end.

(** ** Scoring tables *)

Definition getScoreByDifficulty (d : option Difficulty) : Z :=
  match d with
  | Some easy => 10
  | Some medium => 20
  | Some hard => 30
  | None => 10
  end.

Definition getComboMultiplier (combo : Z) : f64 :=
  if combo <? 3 then f64_literal 1 0
  else if combo <? 5 then f64_literal 1 2
  else if combo <? 10 then f64_literal 1 5
  else if combo <? 20 then f64_literal 2 0
  else f64_literal 2 5.

Definition getModeMultiplier (d : Difficulty) : f64 :=
  match d with
  | easy => f64_literal 1 0
  | medium => f64_literal 1 2
  | hard => f64_literal 1 5
  end.

Definition getTimeByDifficulty (d : Difficulty) : Z :=
  match d with
  | easy => 7
  | medium => 4
  | hard => 2
  end.

(** The body of the [setCombo] updater of [handleAnswer]:
    [Math.floor(basePoints * modeMultiplier * comboMultiplier)]. *)
Definition finalPoints (qd : option Difficulty) (mode : Difficulty)
    (newCombo : Z) : Z :=
  let basePoints := getScoreByDifficulty qd in
  let modeMultiplier := getModeMultiplier mode in
  let comboMultiplier := getComboMultiplier newCombo in
  Math_floor (f64_mul (f64_mul (f64_of_Z basePoints) modeMultiplier)
                      comboMultiplier).

(** The scoring rule in the words of the specification, over exact
    rationals: [floor(basePoints * modeMultiplier * comboMultiplier)]. *)
Definition basePoints_spec (qd : option Difficulty) : Z :=
  match qd with
  | Some medium => 20
  | Some hard => 30
  | _ => 10
  end.

Definition modeMultiplier_spec (d : Difficulty) : Q :=
  match d with
  | easy => 1
  | medium => 12 # 10
  | hard => 15 # 10
  end.

Definition comboMultiplier_spec (comboLength : Z) : Q :=
  if comboLength <? 3 then 1
  else if comboLength <? 5 then 12 # 10
  else if comboLength <? 10 then 15 # 10
  else if comboLength <? 20 then 2
  else 25 # 10.

Definition awardedPoints_spec (qd : option Difficulty) (mode : Difficulty)
    (newComboLength : Z) : Z :=
  Qfloor (inject_Z (basePoints_spec qd) * modeMultiplier_spec mode
          * comboMultiplier_spec newComboLength).

(** ** Randomness *)

(** One outcome of [Math.random()]: a fraction [num/den] in [0,1). *)
Record Unit01 := {
  num : nat;
  den : nat;
  num_lt_den : (num < den)%nat
}.

(** [Math.floor(Math.random() * n)]. *)
Definition random_floor (u : Unit01) (n : nat) : nat :=
  (num u * n / den u)%nat.

(** One outcome of [array.sort(() => Math.random() - 0.5)]: the engine
    calls the comparator as it pleases and leaves the same elements in
    some order. *)
Record Shuffle := {
  shuffle :> list string -> list string;
  shuffle_perm : forall l, shuffle l ≡ₚ l
}.

(** The random choices of one call of [generateQuestion]. *)
Record Random := {
  index_draw : Unit01;
  distractor_sort : Shuffle;
  option_sort : Shuffle
}.

(** ** JavaScript numbers read back from storage *)

Inductive number := Int (z : Z) | NaN.

(** [a > b] for an integer [a]: false when [b] is [NaN]. *)
Definition number_gt (a : Z) (b : number) : bool :=
  match b with
  | Int z => z <? a
  | NaN => false
  end.

(** White space that [parseInt] skips, among the one-byte characters:
    TAB, LF, VT, FF, CR and SP. *)
Definition is_white_space (c : ascii) : bool :=
  let n := Z.of_N (N_of_ascii c) in
  ((9 <=? n) && (n <=? 13)) || (n =? 32).

Fixpoint trim_start (s : string) : string :=
  match s with
  | String c s' => if is_white_space c then trim_start s' else s
  | EmptyString => EmptyString
  end.

Definition digit_value (c : ascii) : option Z :=
  let n := Z.of_N (N_of_ascii c) in
  if (48 <=? n) && (n <=? 57) then Some (n - 48) else None.

(** The value of the longest prefix of decimal digits; [acc] is [None]
    until a digit has been read. *)
Fixpoint parse_digits (acc : option Z) (s : string) : option Z :=
  match s with
  | String c s' =>
      match digit_value c with
      | Some d => parse_digits (Some (10 * default 0 acc + d)) s'
      | None => acc
      end
  | EmptyString => acc
  end.

(** [parseInt(s, 10)]: skip white space, read an optional sign, then the
    longest run of decimal digits; [NaN] when there is no digit.  The
    integer is exact (the engine rounds it to binary64 above 2^53). *)
Definition parseInt (s : string) : number :=
  let trimmed := trim_start s in
  let '(sign, rest) :=
    match trimmed with
    | String "-"%char r => (-1, r)
    | String "+"%char r => (1, r)
    | _ => (1, trimmed)
    end in
  match parse_digits None rest with
  | Some n => Int (sign * n)
  | None => NaN
  end.

(** [n.toString()] for an integer [n]. *)
Definition toString (n : Z) : string := NilZero.string_of_int (Z.to_int n).

(** ** localStorage *)

Record Storage := {
  items : gmap string string;
  denied : bool;   (* every access throws (storage disabled) *)
  full : bool      (* [setItem] throws (quota exceeded) *)
}.

Inductive completion (A : Type) := Normal (a : A) | Throw.
Arguments Normal {A} a.
Arguments Throw {A}.

Definition getItem (st : Storage) (key : string) : completion (option string) :=
  if denied st then Throw else Normal (items st !! key).

Definition setItem (st : Storage) (key value : string) : completion Storage :=
  if denied st || full st then Throw
  else Normal {| items := <[key := value]> (items st);
                 denied := denied st; full := full st |}.

Definition getHighScore (st : Storage) : number :=
  match getItem st "highScore" with
  | Normal (Some stored) =>
      if bool_decide (stored = "") then Int 0 else parseInt stored
  | Normal None => Int 0
  | Throw => Int 0
  end.

Definition saveHighScore (score : Z) (st : Storage) : Storage :=
  let currentHigh := getHighScore st in
  if number_gt score currentHigh then
    match setItem st "highScore" (toString score) with
    | Normal st' => st'
    | Throw => st
    end
  else st.

(** ** The state of the component *)

(** The two callbacks that [handleAnswer] and [tick] pass to
    [setTimeout]: [() => nextQuestion()] and
    [() => setScreen('gameOver')]. *)
Inductive Callback := CallNextQuestion | CallSetScreenGameOver.

(** The [useState] cells and the refs that the round reads or writes.
    [helpPage], [showHighScore] and [highScore] belong to other screens
    and no handler of the round touches them. *)
Record State := mkState {
  screen : Screen;
  speedMode : bool;
  score : Z;
  hearts : Z;
  questionNumber : Z;
  combo : Z;
  timeLeft : Z;
  currentDifficulty : Difficulty;
  currentQuestion : option Question.t;
  selectedAnswer : option string;
  isAnswered : bool;
  feedback : string;
  correctAnswer : option string;
  timerRef : bool;   (* [timerRef.current] holds a running interval *)
  timeoutHandledRef : bool;
  scheduled : list (Callback * Z)   (* pending [setTimeout] callbacks, with their delays *)
}.

(** The initial values of the [useState] and [useRef] calls. *)
Definition initialState : State :=
  {| screen := main; speedMode := false; score := 0; hearts := 3;
     questionNumber := 1; combo := 0; timeLeft := 10;
     currentDifficulty := easy; currentQuestion := None;
     selectedAnswer := None; isAnswered := false; feedback := "";
     correctAnswer := None; timerRef := false; timeoutHandledRef := false;
     scheduled := [] |}.

(** The setters: one field replaced, the others kept. *)
Definition setScreen (v : Screen) (s : State) : State :=
  mkState v (speedMode s) (score s) (hearts s) (questionNumber s) (combo
    s) (timeLeft s) (currentDifficulty s) (currentQuestion s)
    (selectedAnswer s) (isAnswered s) (feedback s) (correctAnswer s)
    (timerRef s) (timeoutHandledRef s) (scheduled s).

Definition setSpeedMode (v : bool) (s : State) : State :=
  mkState (screen s) v (score s) (hearts s) (questionNumber s) (combo s)
    (timeLeft s) (currentDifficulty s) (currentQuestion s)
    (selectedAnswer s) (isAnswered s) (feedback s) (correctAnswer s)
    (timerRef s) (timeoutHandledRef s) (scheduled s).

Definition setScore (v : Z) (s : State) : State :=
  mkState (screen s) (speedMode s) v (hearts s) (questionNumber s)
    (combo s) (timeLeft s) (currentDifficulty s) (currentQuestion s)
    (selectedAnswer s) (isAnswered s) (feedback s) (correctAnswer s)
    (timerRef s) (timeoutHandledRef s) (scheduled s).

Definition setHearts (v : Z) (s : State) : State :=
  mkState (screen s) (speedMode s) (score s) v (questionNumber s) (combo
    s) (timeLeft s) (currentDifficulty s) (currentQuestion s)
    (selectedAnswer s) (isAnswered s) (feedback s) (correctAnswer s)
    (timerRef s) (timeoutHandledRef s) (scheduled s).

Definition setQuestionNumber (v : Z) (s : State) : State :=
  mkState (screen s) (speedMode s) (score s) (hearts s) v (combo s)
    (timeLeft s) (currentDifficulty s) (currentQuestion s)
    (selectedAnswer s) (isAnswered s) (feedback s) (correctAnswer s)
    (timerRef s) (timeoutHandledRef s) (scheduled s).

Definition setCombo (v : Z) (s : State) : State :=
  mkState (screen s) (speedMode s) (score s) (hearts s) (questionNumber
    s) v (timeLeft s) (currentDifficulty s) (currentQuestion s)
    (selectedAnswer s) (isAnswered s) (feedback s) (correctAnswer s)
    (timerRef s) (timeoutHandledRef s) (scheduled s).

Definition setTimeLeft (v : Z) (s : State) : State :=
  mkState (screen s) (speedMode s) (score s) (hearts s) (questionNumber
    s) (combo s) v (currentDifficulty s) (currentQuestion s)
    (selectedAnswer s) (isAnswered s) (feedback s) (correctAnswer s)
    (timerRef s) (timeoutHandledRef s) (scheduled s).

Definition setCurrentDifficulty (v : Difficulty) (s : State) : State :=
  mkState (screen s) (speedMode s) (score s) (hearts s) (questionNumber
    s) (combo s) (timeLeft s) v (currentQuestion s) (selectedAnswer s)
    (isAnswered s) (feedback s) (correctAnswer s) (timerRef s)
    (timeoutHandledRef s) (scheduled s).

Definition setCurrentQuestion (v : option Question.t) (s : State) : State :=
  mkState (screen s) (speedMode s) (score s) (hearts s) (questionNumber
    s) (combo s) (timeLeft s) (currentDifficulty s) v (selectedAnswer s)
    (isAnswered s) (feedback s) (correctAnswer s) (timerRef s)
    (timeoutHandledRef s) (scheduled s).

Definition setSelectedAnswer (v : option string) (s : State) : State :=
  mkState (screen s) (speedMode s) (score s) (hearts s) (questionNumber
    s) (combo s) (timeLeft s) (currentDifficulty s) (currentQuestion s)
    v (isAnswered s) (feedback s) (correctAnswer s) (timerRef s)
    (timeoutHandledRef s) (scheduled s).

Definition setIsAnswered (v : bool) (s : State) : State :=
  mkState (screen s) (speedMode s) (score s) (hearts s) (questionNumber
    s) (combo s) (timeLeft s) (currentDifficulty s) (currentQuestion s)
    (selectedAnswer s) v (feedback s) (correctAnswer s) (timerRef s)
    (timeoutHandledRef s) (scheduled s).

Definition setFeedback (v : string) (s : State) : State :=
  mkState (screen s) (speedMode s) (score s) (hearts s) (questionNumber
    s) (combo s) (timeLeft s) (currentDifficulty s) (currentQuestion s)
    (selectedAnswer s) (isAnswered s) v (correctAnswer s) (timerRef s)
    (timeoutHandledRef s) (scheduled s).

Definition setCorrectAnswer (v : option string) (s : State) : State :=
  mkState (screen s) (speedMode s) (score s) (hearts s) (questionNumber
    s) (combo s) (timeLeft s) (currentDifficulty s) (currentQuestion s)
    (selectedAnswer s) (isAnswered s) (feedback s) v (timerRef s)
    (timeoutHandledRef s) (scheduled s).

Definition setTimerRef (v : bool) (s : State) : State :=
  mkState (screen s) (speedMode s) (score s) (hearts s) (questionNumber
    s) (combo s) (timeLeft s) (currentDifficulty s) (currentQuestion s)
    (selectedAnswer s) (isAnswered s) (feedback s) (correctAnswer s) v
    (timeoutHandledRef s) (scheduled s).

Definition setTimeoutHandledRef (v : bool) (s : State) : State :=
  mkState (screen s) (speedMode s) (score s) (hearts s) (questionNumber
    s) (combo s) (timeLeft s) (currentDifficulty s) (currentQuestion s)
    (selectedAnswer s) (isAnswered s) (feedback s) (correctAnswer s)
    (timerRef s) v (scheduled s).

Definition setScheduled (v : list (Callback * Z)) (s : State) : State :=
  mkState (screen s) (speedMode s) (score s) (hearts s) (questionNumber
    s) (combo s) (timeLeft s) (currentDifficulty s) (currentQuestion s)
    (selectedAnswer s) (isAnswered s) (feedback s) (correctAnswer s)
    (timerRef s) (timeoutHandledRef s) v.

Definition setTimeout (cb : Callback) (delay : Z) (s : State) : State :=
  setScheduled (scheduled s ++ [(cb, delay)]) s.

(** [if (timerRef.current) { clearInterval(timerRef.current);
    timerRef.current = null }]. *)
Definition clearTimer (s : State) : State :=
  if timerRef s then setTimerRef false s else s.

Section Game.

(** The question bank [COUNTRY_CAPITALS], read from
    [data/countries.json]; the properties below are stated for any
    bank. *)
Variable COUNTRY_CAPITALS : list CountryCapital.t.

(** *** Question generator *)

(** The first half of [generateQuestion]: the facts the correct answer
    is drawn from. *)
Definition availableCountries (mode : Difficulty) (questionNumber : Z)
    : list CountryCapital.t :=
  match mode with
  | easy =>
      if questionNumber <=? 20 then
        filter (fun c => CountryCapital.difficulty c = Some easy)
               COUNTRY_CAPITALS
      else if questionNumber <=? 40 then
        filter (fun c => CountryCapital.difficulty c = Some easy
                         \/ CountryCapital.difficulty c = Some medium)
               COUNTRY_CAPITALS
      else COUNTRY_CAPITALS
  | medium =>
      if questionNumber <=? 30 then
        filter (fun c => CountryCapital.difficulty c = Some easy
                         \/ CountryCapital.difficulty c = Some medium)
               COUNTRY_CAPITALS
      else COUNTRY_CAPITALS
  | hard => COUNTRY_CAPITALS
  end.

(** [None] stands for the [TypeError] of [correct.capital] when the
    drawn entry is [undefined], which happens exactly when the eligible
    list is empty. *)
Definition generateQuestion (r : Random) (mode : Difficulty)
    (questionNumber : Z) : option Question.t :=
  let available := availableCountries mode questionNumber in
  let randomIndex := random_floor (index_draw r) (length available) in
  match available !! randomIndex with
  | None => None
  | Some correct =>
      let otherCapitals :=
        take 3
          (distractor_sort r
             (CountryCapital.capital <$>
                filter (fun item => CountryCapital.capital item
                                    <> CountryCapital.capital correct)
                       COUNTRY_CAPITALS)) in
      let options :=
        option_sort r (CountryCapital.capital correct :: otherCapitals) in
      Some {| Question.country := CountryCapital.country correct;
              Question.capital := CountryCapital.capital correct;
              Question.options := options;
              Question.difficulty :=
                Some (default easy (CountryCapital.difficulty correct)) |}
  end.

(** *** Handlers *)

(** [None]: [generateQuestion] threw. *)
Definition startGame (r : Random) (mode : Difficulty) (s : State)
    : option State :=
  let s := setCurrentDifficulty mode s in
  let s := setScore 0 s in
  let s := setHearts 3 s in
  let s := setQuestionNumber 1 s in
  let s := setCombo 0 s in
  let s := setIsAnswered false s in
  let s := setSelectedAnswer None s in
  let s := setFeedback "" s in
  let s := setCorrectAnswer None s in
  match generateQuestion r mode 1 with
  | None => None
  | Some question =>
      let s := setCurrentQuestion (Some question) s in
      let time := getTimeByDifficulty mode in
      let s := setTimeLeft time s in
      Some (setScreen game s)
  end.

Definition nextQuestion (r : Random) (s : State) : option State :=
  if hearts s <=? 0 then Some (setScreen gameOver s)
  else
    let newNumber := questionNumber s + 1 in
    let s1 := setIsAnswered false s in
    let s1 := setSelectedAnswer None s1 in
    let s1 := setFeedback "" s1 in
    let s1 := setCorrectAnswer None s1 in
    match generateQuestion r (currentDifficulty s) newNumber with
    | None => None
    | Some question =>
        let s1 := setCurrentQuestion (Some question) s1 in
        let time := getTimeByDifficulty (currentDifficulty s) in
        let s1 := setTimeLeft time s1 in
        Some (setQuestionNumber newNumber s1)
    end.

(** [currentQuestion?.capital || null]: an empty capital is falsy. *)
Definition capitalOrNull (q : option Question.t) : option string :=
  match q with
  | Some q => if bool_decide (Question.capital q = "") then None
              else Some (Question.capital q)
  | None => None
  end.

Definition handleAnswer (answer : string) (s : State) : State :=
  if isAnswered s then s
  else
    let s1 := setIsAnswered true s in
    let s1 := setSelectedAnswer (Some answer) s1 in
    let s1 := clearTimer s1 in
    let delay := if speedMode s then 500 else 1500 in
    let wrongDelay := if speedMode s then 500 else 2000 in
    if bool_decide (Some answer = Question.capital <$> currentQuestion s)
    then
      let newCombo := combo s1 + 1 in
      let points :=
        finalPoints (currentQuestion s ≫= Question.difficulty)
                    (currentDifficulty s) newCombo in
      let s1 := setScore (score s1 + points) s1 in
      let s1 := setCombo newCombo s1 in
      let s1 := setFeedback "정답입니다!" s1 in
      setTimeout CallNextQuestion delay s1
    else
      let s1 := setCombo 0 s1 in
      let s1 := setFeedback "틀렸습니다!" s1 in
      let s1 := setCorrectAnswer (capitalOrNull (currentQuestion s)) s1 in
      let newHearts := hearts s1 - 1 in
      let s1 :=
        if newHearts <=? 0 then setTimeout CallSetScreenGameOver delay s1
        else setTimeout CallNextQuestion wrongDelay s1 in
      setHearts newHearts s1.

(** The interval callback of the timer effect. *)
Definition tick (s : State) : State :=
  if isAnswered s || timeoutHandledRef s then s
  else
    let prev := timeLeft s in
    if prev <=? 0 then setTimeLeft 0 s
    else
      let newTime := prev - 1 in
      if (newTime <=? 0) && negb (timeoutHandledRef s) then
        let s1 := setTimeoutHandledRef true s in
        let s1 := clearTimer s1 in
        let s1 := setIsAnswered true s1 in
        let s1 := setFeedback "시간 초과입니다!" s1 in
        let s1 := setCombo 0 s1 in
        let s1 :=
          setCorrectAnswer (Question.capital <$> currentQuestion s) s1 in
        let newHearts := hearts s1 - 1 in
        let delay := if speedMode s then 500 else 1500 in
        let wrongDelay := if speedMode s then 500 else 2000 in
        let s1 :=
          if newHearts <=? 0 then setTimeout CallSetScreenGameOver delay s1
          else setTimeout CallNextQuestion wrongDelay s1 in
        let s1 := setHearts newHearts s1 in
        setTimeLeft 0 s1
      else setTimeLeft newTime s.

Definition handleBack (s : State) : State :=
  if bool_decide (screen s = difficulty) then setScreen main s
  else if bool_decide (screen s = game) then
    setScreen difficulty (clearTimer s)
  else s.

(** The branch of the render function for the game screen that
    creates a question when there is none. *)
Definition renderGame (r : Random) (s : State) : option State :=
  if bool_decide (screen s = game) then
    match currentQuestion s with
    | Some _ => Some s
    | None =>
        match generateQuestion r (currentDifficulty s) (questionNumber s) with
        | None => None
        | Some question =>
            let s := setCurrentQuestion (Some question) s in
            Some (setTimeLeft (getTimeByDifficulty (currentDifficulty s)) s)
        end
    end
  else Some s.

(** *** The timer effect *)

(** The condition under which the effect starts the interval. *)
Definition armed (s : State) : bool :=
  bool_decide (screen s = game)
  && bool_decide (is_Some (currentQuestion s))
  && negb (isAnswered s).

(** [useEffect(..., [screen, currentQuestion, isAnswered,
    currentDifficulty])]: the clean-up of the previous run clears the
    interval; the body, when the round is armed, resets the latch and
    starts a new interval. *)
Definition timerEffect (s : State) : State :=
  if armed s then setTimerRef true (setTimeoutHandledRef false s)
  else setTimerRef false s.

(** *** The component as a transition system *)

Inductive Event :=
| EvStartGame (r : Random) (mode : Difficulty)
    (* a difficulty button, or the retry button of the game-over screen *)
| EvAnswer (answer : string)          (* an option button *)
| EvTick                              (* the interval fires *)
| EvFire (k : nat) (r : Random)       (* the k-th pending callback runs *)
| EvBack                              (* the back button *)
| EvNavigate (sc : Screen)
    (* any other handler that only calls [setScreen]: the menu
       buttons and the [popstate] listener *)
| EvSetSpeedMode (b : bool)           (* the speed-mode check box *)
| EvRender (r : Random).              (* a render of the game screen *)

Definition fire (k : nat) (r : Random) (s : State) : option State :=
  match scheduled s !! k with
  | None => Some s
  | Some (cb, _) =>
      let s := setScheduled (delete k (scheduled s)) s in
      match cb with
      | CallNextQuestion => nextQuestion r s
      | CallSetScreenGameOver => Some (setScreen gameOver s)
      end
  end.

Definition handle (ev : Event) (s : State) : option State :=
  match ev with
  | EvStartGame r mode => startGame r mode s
  | EvAnswer answer => Some (handleAnswer answer s)
  | EvTick => Some (if timerRef s then tick s else s)
  | EvFire k r => fire k r s
  | EvBack => Some (handleBack s)
  | EvNavigate sc => Some (setScreen sc s)
  | EvSetSpeedMode b => Some (setSpeedMode b s)
  | EvRender r => renderGame r s
  end.

(** One event: the handler, then the commit that runs the timer
    effect.  [None] when the handler throws. *)
Definition step (ev : Event) (s : State) : option State :=
  timerEffect <$> handle ev s.

Inductive reachable : State -> Prop :=
| reachable_init : reachable initialState
| reachable_step ev s s' :
    reachable s -> step ev s = Some s' -> reachable s'.

(** A run of events, stopping at the first handler that throws. *)
Fixpoint run (evs : list Event) (s : State) : option State :=
  match evs with
  | [] => Some s
  | ev :: evs' =>
      match step ev s with
      | Some s' => run evs' s'
      | None => None
      end
  end.


End Game.

(** ** The game-over effect and the high score *)

(** [useEffect(() => { if (screen === 'gameOver' && score > 0) {
    saveHighScore(score); setHighScore(getHighScore()) } }, [screen,
    score])], on the displayed high score and the storage. *)
Definition gameOverEffect (s : State) (highScore : number) (st : Storage)
    : number * Storage :=
  if bool_decide (screen s = gameOver) && (0 <? score s) then
    let st' := saveHighScore (score s) st in
    (getHighScore st', st')
  else (highScore, st).

Arguments finalPoints : simpl never.
Arguments f64_literal : simpl never.
Arguments f64_mul : simpl never.
Arguments f64_of_Z : simpl never.
Arguments getComboMultiplier : simpl never.
Arguments getModeMultiplier : simpl never.

(** ** Auxiliary definitions used by the statements *)

(** The delays of [handleAnswer] and [tick]. *)
Definition delayOf (s : State) : Z := if speedMode s then 500 else 1500.
Definition wrongDelayOf (s : State) : Z := if speedMode s then 500 else 2000.

(** The callback a lost life schedules. *)
Definition afterMiss (s : State) : Callback * Z :=
  if hearts s - 1 <=? 0 then (CallSetScreenGameOver, delayOf s)
  else (CallNextQuestion, wrongDelayOf s).

(** The capitals of the facts other than [x], in bank order. *)
Definition others (bank : list CountryCapital.t) (x : CountryCapital.t)
    : list string :=
  CountryCapital.capital <$>
    filter (fun item => CountryCapital.capital item
                        <> CountryCapital.capital x) bank.

(** The four ways a tick can go. *)
Inductive tick_outcome (s : State) : State -> Prop :=
| tick_ignored :
    isAnswered s = true \/ timeoutHandledRef s = true ->
    tick_outcome s s
| tick_counts :
    isAnswered s = false -> timeoutHandledRef s = false ->
    1 < timeLeft s ->
    tick_outcome s (setTimeLeft (timeLeft s - 1) s)
| tick_times_out :
    isAnswered s = false -> timeoutHandledRef s = false ->
    0 < timeLeft s <= 1 ->
    tick_outcome s
      (mkState (screen s) (speedMode s) (score s) (hearts s - 1)
         (questionNumber s) 0 0 (currentDifficulty s) (currentQuestion s)
         (selectedAnswer s) true "시간 초과입니다!"
         (Question.capital <$> currentQuestion s) false true
         (scheduled s ++ [afterMiss s]))
| tick_stays_at_zero :
    isAnswered s = false -> timeoutHandledRef s = false ->
    timeLeft s <= 0 ->
    tick_outcome s (setTimeLeft 0 s).

(** The three ways an answer can go. *)
Inductive answer_outcome (answer : string) (s : State) : State -> Prop :=
| answer_ignored :
    isAnswered s = true -> answer_outcome answer s s
| answer_correct q :
    isAnswered s = false -> currentQuestion s = Some q ->
    answer = Question.capital q ->
    answer_outcome answer s
      (mkState (screen s) (speedMode s)
         (score s + finalPoints (Question.difficulty q) (currentDifficulty s)
                                (combo s + 1))
         (hearts s) (questionNumber s) (combo s + 1) (timeLeft s)
         (currentDifficulty s) (currentQuestion s) (Some answer) true
         "정답입니다!" (correctAnswer s) false (timeoutHandledRef s)
         (scheduled s ++ [(CallNextQuestion, delayOf s)]))
| answer_wrong :
    isAnswered s = false ->
    Some answer <> Question.capital <$> currentQuestion s ->
    answer_outcome answer s
      (mkState (screen s) (speedMode s) (score s) (hearts s - 1)
         (questionNumber s) 0 (timeLeft s) (currentDifficulty s)
         (currentQuestion s) (Some answer) true "틀렸습니다!"
         (capitalOrNull (currentQuestion s)) false (timeoutHandledRef s)
         (scheduled s ++ [afterMiss s])).


(** What the commit maintains: the interval runs only in an armed round
    whose latch is clear, the latch is set only after a question exists,
    and on the game screen a set latch comes with [isAnswered]. *)
Definition Inv (s : State) : Prop :=
  (timerRef s = true -> armed s = true /\ timeoutHandledRef s = false)
  /\ (currentQuestion s = None -> timeoutHandledRef s = false)
  /\ (screen s = game -> timeoutHandledRef s = true -> isAnswered s = true).


(** The integer a sequence of decimal digits stands for, read from the
    most significant digit with [acc] already read. *)
Fixpoint uint_value (acc : Z) (d : Decimal.uint) : Z :=
  match d with
  | Decimal.Nil => acc
  | Decimal.D0 l => uint_value (10 * acc + 0) l
  | Decimal.D1 l => uint_value (10 * acc + 1) l
  | Decimal.D2 l => uint_value (10 * acc + 2) l
  | Decimal.D3 l => uint_value (10 * acc + 3) l
  | Decimal.D4 l => uint_value (10 * acc + 4) l
  | Decimal.D5 l => uint_value (10 * acc + 5) l
  | Decimal.D6 l => uint_value (10 * acc + 6) l
  | Decimal.D7 l => uint_value (10 * acc + 7) l
  | Decimal.D8 l => uint_value (10 * acc + 8) l
  | Decimal.D9 l => uint_value (10 * acc + 9) l
  end.

(** A working storage that holds [value] under the key of the game. *)
Definition storageWith (value : string) : Storage :=
  {| items := {[ "highScore" := value ]}; denied := false; full := false |}.

Definition emptyStorage : Storage :=
  {| items := ∅; denied := false; full := false |}.

(** What the data model asks of a question: four options, pairwise
    distinct, the correct capital among them exactly once. *)
Definition validQuestion (q : Question.t) : Prop :=
  length (Question.options q) = 4%nat
  /\ NoDup (Question.options q)
  /\ length (filter (fun o => o = Question.capital q) (Question.options q))
     = 1%nat.

(** What [generateQuestion] relies on in the bank: no capital listed
    twice, at least four facts, and a fact tagged easy (the smallest
    eligible list is never empty). *)
Definition wellFormedBank (bank : list CountryCapital.t) : Prop :=
  NoDup (CountryCapital.capital <$> bank)
  /\ (4 <= length bank)%nat
  /\ exists c, c ∈ bank /\ CountryCapital.difficulty c = Some easy.

(** ** Sample data for the examples *)

Definition sampleBank : list CountryCapital.t :=
  [ CountryCapital.mk "France" "Paris" (Some easy);
    CountryCapital.mk "Japan" "Tokyo" (Some easy);
    CountryCapital.mk "Kenya" "Nairobi" (Some medium);
    CountryCapital.mk "Bhutan" "Thimphu" (Some hard);
    CountryCapital.mk "Palau" "Ngerulmud" None ].

(** A bank in which two countries list the same capital. *)
Definition sharedCapitalBank : list CountryCapital.t :=
  [ CountryCapital.mk "France" "Paris" (Some easy);
    CountryCapital.mk "Israel" "Jerusalem" (Some medium);
    CountryCapital.mk "Palestine" "Jerusalem" (Some medium);
    CountryCapital.mk "Japan" "Tokyo" (Some easy);
    CountryCapital.mk "Kenya" "Nairobi" (Some medium) ].

Definition half : Unit01 :=
  {| num := 1; den := 2; num_lt_den := Nat.lt_1_2 |}.

Definition zeroDraw : Unit01 :=
  {| num := 0; den := 1; num_lt_den := Nat.lt_0_1 |}.

(** The comparator leaves the array as it is. *)
Definition keepOrder : Shuffle :=
  {| shuffle := fun l => l; shuffle_perm := fun l => reflexivity l |}.

(** The comparator reverses the array. *)
Definition reverseOrder : Shuffle :=
  {| shuffle := reverse; shuffle_perm := reverse_Permutation |}.

Definition sampleRandom : Random :=
  {| index_draw := half; distractor_sort := reverseOrder;
     option_sort := keepOrder |}.

Definition firstRandom : Random :=
  {| index_draw := zeroDraw; distractor_sort := keepOrder;
     option_sort := keepOrder |}.

Definition sampleQuestion : Question.t :=
  {| Question.country := "Bhutan"; Question.capital := "Thimphu";
     Question.options := ["Paris"; "Thimphu"; "Tokyo"; "Nairobi"];
     Question.difficulty := Some hard |}.

(** An armed round of a hard game: four correct answers in a row so far,
    one second and one heart left. *)
Definition sampleRound : State :=
  {| screen := game; speedMode := false; score := 180; hearts := 1;
     questionNumber := 9; combo := 4; timeLeft := 1;
     currentDifficulty := hard; currentQuestion := Some sampleQuestion;
     selectedAnswer := None; isAnswered := false; feedback := "";
     correctAnswer := None; timerRef := true; timeoutHandledRef := false;
     scheduled := [] |}.

(** The first round of an easy game. *)
Definition firstRound : State :=
  {| screen := game; speedMode := false; score := 0; hearts := 3;
     questionNumber := 1; combo := 0; timeLeft := 7;
     currentDifficulty := easy;
     currentQuestion :=
       Some {| Question.country := "France"; Question.capital := "Paris";
               Question.options := ["Paris"; "Tokyo"; "Nairobi"; "Thimphu"];
               Question.difficulty := Some easy |};
     selectedAnswer := None; isAnswered := false; feedback := "";
     correctAnswer := None; timerRef := true; timeoutHandledRef := false;
     scheduled := [] |}.

(** The first round of an easy game on the sample bank, as the machine
    produces it, and the same round after a wrong answer. *)
Definition startedRound : State :=
  default initialState
    (step sampleBank (EvStartGame sampleRandom easy) initialState).

Definition answeredRound : State :=
  default initialState (step sampleBank (EvAnswer "Berlin") startedRound).

(** A game that has just ended with 247 points. *)
Definition finishedGame : State :=
  setScreen gameOver (setHearts 0 (setIsAnswered true (setScore 247 sampleRound))).

(** ** What the game screen shows *)

(** The class of one answer button: [isCorrect], [isSelected] and
    [showCorrect] of the render function. *)
Definition answerButtonClass (q : Question.t) (s : State) (opt : string)
    : string :=
  let isCorrect := bool_decide (opt = Question.capital q) in
  let isSelected := bool_decide (Some opt = selectedAnswer s) in
  let showCorrect :=
    isAnswered s
    && (bool_decide (correctAnswer s = Some opt) || (isSelected && isCorrect)) in
  if showCorrect then "correct-answer"
  else if isSelected && negb isCorrect then "wrong-answer"
  else "".



(** [hay.includes(needle)]. *)
Definition includes (hay needle : string) : bool :=
  bool_decide (is_Some (String.index 0 needle hay)).

(** The feedback banner: absent while [feedback] is empty, otherwise its
    class and text. *)
Definition feedbackMessage (s : State) : option (string * string) :=
  if bool_decide (feedback s = "") then None
  else Some (if includes (feedback s) "정답" then "correct" else "incorrect",
             feedback s).

(** The badge of the game-over screen:
    [score === highScore && score > 0]. *)
Definition newRecordBadge (score : Z) (highScore : number) : bool :=
  match highScore with
  | Int h => (score =? h) && (0 <? score)
  | NaN => false
  end.

(** ** Help pages *)

(** [helpPages.length]: the array literal has eight pages. *)
Definition helpPagesLength : Z := 8.

Definition handleHelpPrev (helpPage : Z) : Z :=
  if 0 <? helpPage then helpPage - 1 else helpPagesLength - 1.

Definition handleHelpNext (helpPage : Z) : Z :=
  if helpPage <? helpPagesLength - 1 then helpPage + 1 else 0.

(** ** The [popstate] listener *)

(** The value [history.state.screen] of an entry pushed by the component. *)
Definition screenName (sc : Screen) : string :=
  match sc with
  | main => "main"
  | difficulty => "difficulty"
  | game => "game"
  | gameOver => "gameOver"
  | help => "help"
  end.

(** [handlePopState]: [entry] is [event.state.screen], [None] when
    [event.state] is null.  The result is the new state and the entries
    the listener pushes on the history. *)
Definition handlePopState (entry : option string) (s : State)
    : State * list string :=
  if bool_decide (entry = Some "dummy") then (setScreen main s, ["main"])
  else
    match screen s with
    | main =>
        if bool_decide (entry = Some "dummy") then (setScreen main s, ["main"])
        else (s, ["main"])
    | difficulty =>
        if bool_decide (entry = Some "main") then (setScreen main s, [])
        else if bool_decide (entry = Some "dummy") then
          (setScreen main s, ["main"])
        else (setScreen main s, ["main"])
    | game =>
        if bool_decide (entry = Some "difficulty") then
          (setScreen difficulty s, [])
        else if bool_decide (entry = Some "main") then (setScreen main s, [])
        else (setScreen difficulty s, ["difficulty"])
    | help =>
        if bool_decide (entry = Some "main") then (setScreen main s, [])
        else (setScreen main s, ["main"])
    | gameOver =>
        match entry with
        | Some name =>
            if bool_decide (name = "") then (setScreen main s, ["main"])
            else if bool_decide (name = "main") then (setScreen main s, [])
            else if bool_decide (name = "difficulty") then
              (setScreen difficulty s, [])
            else if bool_decide (name = "game") then (setScreen game s, [])
            else if bool_decide (name = "help") then (setScreen help s, [])
            else (setScreen main s, ["main"])
        | None => (setScreen main s, ["main"])
        end
    end.

(** The history entry that is current once the listener has run: the
    last one it pushed, or the entry the browser moved to. *)
Definition currentEntry (entry : option string) (pushed : list string)
    : option string :=
  match last pushed with
  | Some name => Some name
  | None => entry
  end.

(** ** Ranges kept by the component *)

(** The most a single correct answer can be worth:
    [floor(30 * 1.5 * 2.5)]. *)
Definition maxPoints : Z := 112.

Definition Ranges (s : State) : Prop :=
  (0 <= hearts s <= 3)
  /\ (isAnswered s = false -> 1 <= hearts s)
  /\ (0 <= score s)
  /\ (0 <= combo s)
  /\ (1 <= questionNumber s)
  /\ (if isAnswered s
      then combo s <= questionNumber s
           /\ score s <= maxPoints * questionNumber s
      else combo s < questionNumber s
           /\ score s <= maxPoints * (questionNumber s - 1))
  /\ (isAnswered s = false ->
      selectedAnswer s = None /\ correctAnswer s = None /\ feedback s = "")
  /\ (0 <= timeLeft s <= 10)
  /\ (is_Some (currentQuestion s) ->
      timeLeft s <= getTimeByDifficulty (currentDifficulty s))
  /\ (isAnswered s = false -> is_Some (currentQuestion s) -> 1 <= timeLeft s).

(** The question of [startedRound], and the same round with one second
    left on the clock. *)
Definition tokyoQuestion : Question.t :=
  {| Question.country := "Japan"; Question.capital := "Tokyo";
     Question.options := ["Tokyo"; "Ngerulmud"; "Thimphu"; "Nairobi"];
     Question.difficulty := Some easy |}.

Definition lastSecondRound : State :=
  default initialState (run sampleBank (replicate 6 EvTick) startedRound).

(** The question drawn from [sharedCapitalBank] by [firstRandom]. *)
Definition sharedQuestion : Question.t :=
  {| Question.country := "France"; Question.capital := "Paris";
     Question.options := ["Paris"; "Jerusalem"; "Jerusalem"; "Tokyo"];
     Question.difficulty := Some easy |}.

(** A round as [startGame] and [nextQuestion] leave it after the commit:
    armed, the interval running, the clock at the duration of the mode,
    no callback pending. *)
Definition freshRound (mode : Difficulty) (s : State) : Prop :=
  screen s = game /\ is_Some (currentQuestion s) /\ isAnswered s = false
  /\ timerRef s = true /\ timeoutHandledRef s = false
  /\ currentDifficulty s = mode
  /\ timeLeft s = getTimeByDifficulty mode
  /\ scheduled s = [].

(** The events of a round in which the player does nothing: the clock
    runs out and the scheduled callback fires. *)
Definition idleRound (mode : Difficulty) (r : Random) : list Event :=
  replicate (Z.to_nat (getTimeByDifficulty mode)) EvTick ++ [EvFire 0 r].

(** * Properties *)

(** ** Scoring *)

Ltac combo_cases c :=
  destruct (c <? 3) eqn:?; [|
  destruct (c <? 5) eqn:?; [|
  destruct (c <? 10) eqn:?; [|
  destruct (c <? 20) eqn:? ]]].

(** The value that [Math.floor] receives is a finite number. *)
Lemma finalPoints_finite (qd : option Difficulty) (mode : Difficulty) (c : Z) :
  exists sg m e,
    f64_mul (f64_mul (f64_of_Z (getScoreByDifficulty qd))
                     (getModeMultiplier mode))
            (getComboMultiplier c) = S754_finite sg m e.
Proof.
  unfold getComboMultiplier.
  destruct qd as [[]|], mode; combo_cases c; vm_compute; eauto.
Qed.

(** The binary64 computation of the handler and the exact formula of the
    specification give the same integer. *)
Lemma finalPoints_exact (qd : option Difficulty) (mode : Difficulty) (c : Z) :
  finalPoints qd mode c = awardedPoints_spec qd mode c.
Proof.
  unfold finalPoints, awardedPoints_spec, getComboMultiplier,
    comboMultiplier_spec.
  destruct qd as [[]|], mode; combo_cases c; vm_compute; reflexivity.
Qed.

Lemma getComboMultiplier_mono (c1 c2 : Z) :
  c1 <= c2 -> SFleb (getComboMultiplier c1) (getComboMultiplier c2) = true.
Proof.
  intros Hle. unfold getComboMultiplier.
  combo_cases c1; combo_cases c2; try (vm_compute; reflexivity); lia.
Qed.

Lemma getComboMultiplier_jump (c : Z) :
  getComboMultiplier (c - 1) <> getComboMultiplier c
  <-> c = 3 \/ c = 5 \/ c = 10 \/ c = 20.
Proof.
  unfold getComboMultiplier.
  combo_cases (c - 1); combo_cases c; try lia;
    (split; [intros Hne; try lia; exfalso; apply Hne; reflexivity
            | intros Hc; try lia; vm_compute; discriminate]).
Qed.

(** What the five literals stand for: 1, 3/2, 2 and 5/2 exactly, and for
    [1.2] a binary64 number at most 2^-53 below 6/5. *)
Lemma f64_literal_values :
  (f64_to_Q (f64_literal 1 0) == 1)%Q
  /\ (f64_to_Q (f64_literal 1 5) == 3 # 2)%Q
  /\ (f64_to_Q (f64_literal 2 0) == 2)%Q
  /\ (f64_to_Q (f64_literal 2 5) == 5 # 2)%Q
  /\ ((6 # 5) - (1 # 2 ^ 53) <= f64_to_Q (f64_literal 1 2) <= 6 # 5)%Q.
Proof.
  repeat apply conj; try (vm_compute; reflexivity);
    apply Qle_bool_iff; vm_compute; reflexivity.
Qed.

(** ** The two resolving handlers, branch by branch *)


Lemma clearTimer_timerRef (s : State) : timerRef (clearTimer s) = false.
Proof. unfold clearTimer. destruct (timerRef s) eqn:E; [reflexivity | exact E]. Qed.

Lemma clearTimer_eq (s : State) : clearTimer s = setTimerRef false s.
Proof.
  unfold clearTimer. destruct s as [? ? ? ? ? ? ? ? ? ? ? ? ? [] ? ?]; reflexivity.
Qed.

Lemma handleAnswer_resolved (answer : string) (s : State) :
  isAnswered s = true -> handleAnswer answer s = s.
Proof. intros H. unfold handleAnswer. rewrite H. reflexivity. Qed.

Lemma handleAnswer_correct (answer : string) (s : State) (q : Question.t) :
  isAnswered s = false ->
  currentQuestion s = Some q ->
  answer = Question.capital q ->
  handleAnswer answer s =
  mkState (screen s) (speedMode s)
    (score s + finalPoints (Question.difficulty q) (currentDifficulty s)
                           (combo s + 1))
    (hearts s) (questionNumber s) (combo s + 1) (timeLeft s)
    (currentDifficulty s) (currentQuestion s) (Some answer) true
    "정답입니다!" (correctAnswer s) false (timeoutHandledRef s)
    (scheduled s ++ [(CallNextQuestion, delayOf s)]).
Proof.
  intros Ha Hq ->. unfold handleAnswer. rewrite Ha, Hq. simpl.
  rewrite bool_decide_eq_true_2 by reflexivity.
  rewrite !clearTimer_eq. unfold setTimeout, delayOf. simpl.
  rewrite <- Hq. reflexivity.
Qed.

Lemma handleAnswer_wrong (answer : string) (s : State) :
  isAnswered s = false ->
  Some answer <> Question.capital <$> currentQuestion s ->
  handleAnswer answer s =
  mkState (screen s) (speedMode s) (score s) (hearts s - 1)
    (questionNumber s) 0 (timeLeft s) (currentDifficulty s)
    (currentQuestion s) (Some answer) true "틀렸습니다!"
    (capitalOrNull (currentQuestion s)) false (timeoutHandledRef s)
    (scheduled s ++ [afterMiss s]).
Proof.
  intros Ha Hne. unfold handleAnswer. rewrite Ha.
  rewrite bool_decide_eq_false_2 by exact Hne.
  rewrite !clearTimer_eq. unfold setTimeout, afterMiss, delayOf, wrongDelayOf.
  simpl. destruct (hearts s - 1 <=? 0); reflexivity.
Qed.

Lemma tick_resolved (s : State) :
  isAnswered s = true \/ timeoutHandledRef s = true -> tick s = s.
Proof.
  intros [H|H]; unfold tick; rewrite H; [|rewrite orb_true_r]; reflexivity.
Qed.

(** The tick that finds one second left is the timeout. *)
Lemma tick_timeout (s : State) :
  isAnswered s = false ->
  timeoutHandledRef s = false ->
  0 < timeLeft s <= 1 ->
  tick s =
  mkState (screen s) (speedMode s) (score s) (hearts s - 1)
    (questionNumber s) 0 0 (currentDifficulty s) (currentQuestion s)
    (selectedAnswer s) true "시간 초과입니다!"
    (Question.capital <$> currentQuestion s) false true
    (scheduled s ++ [afterMiss s]).
Proof.
  intros Ha Hl Ht. unfold tick. rewrite Ha, Hl. simpl.
  destruct (Z.leb_spec (timeLeft s) 0); [lia|].
  destruct (Z.leb_spec (timeLeft s - 1) 0); [|lia]. simpl.
  rewrite !clearTimer_eq. unfold setTimeout, afterMiss, delayOf, wrongDelayOf.
  simpl. destruct (hearts s - 1 <=? 0); reflexivity.
Qed.

(** Any earlier tick only counts down. *)
Lemma tick_countdown (s : State) :
  isAnswered s = false ->
  timeoutHandledRef s = false ->
  1 < timeLeft s ->
  tick s = setTimeLeft (timeLeft s - 1) s.
Proof.
  intros Ha Hl Ht. unfold tick. rewrite Ha, Hl. simpl.
  destruct (Z.leb_spec (timeLeft s) 0); [lia|].
  destruct (Z.leb_spec (timeLeft s - 1) 0); [lia|]. reflexivity.
Qed.

Lemma tick_expired (s : State) :
  isAnswered s = false ->
  timeoutHandledRef s = false ->
  timeLeft s <= 0 ->
  tick s = setTimeLeft 0 s.
Proof.
  intros Ha Hl Ht. unfold tick. rewrite Ha, Hl. simpl.
  destruct (Z.leb_spec (timeLeft s) 0); [reflexivity|lia].
Qed.

(** ** The question generator *)

Lemma random_floor_lt (u : Unit01) (n : nat) :
  (0 < n)%nat -> (random_floor u n < n)%nat.
Proof.
  intros Hn. unfold random_floor.
  pose proof (num_lt_den u) as Hu.
  apply Nat.Div0.div_lt_upper_bound. nia.
Qed.

Section Generator_facts.

Variable bank : list CountryCapital.t.


Lemma availableCountries_sub (mode : Difficulty) (n : Z) (c : CountryCapital.t) :
  c ∈ availableCountries bank mode n -> c ∈ bank.
Proof.
  unfold availableCountries.
  destruct mode; repeat case_match; try done;
    intros [_ ?]%list_elem_of_filter; done.
Qed.

Lemma availableCountries_easy (mode : Difficulty) (n : Z) (c : CountryCapital.t) :
  c ∈ bank -> CountryCapital.difficulty c = Some easy ->
  c ∈ availableCountries bank mode n.
Proof.
  intros Hc He. unfold availableCountries.
  destruct mode; repeat case_match; try done;
    apply list_elem_of_filter; auto.
Qed.

(** The generator returns a question whenever the eligible list is not
    empty, and the question is built from a fact of that list. *)
Lemma generateQuestion_Some (r : Random) (mode : Difficulty) (n : Z) :
  availableCountries bank mode n <> [] ->
  exists correct,
    correct ∈ availableCountries bank mode n /\
    generateQuestion bank r mode n =
    Some {| Question.country := CountryCapital.country correct;
            Question.capital := CountryCapital.capital correct;
            Question.options :=
              option_sort r (CountryCapital.capital correct ::
                             take 3 (distractor_sort r (others bank correct)));
            Question.difficulty :=
              Some (default easy (CountryCapital.difficulty correct)) |}.
Proof.
  intros Hne. unfold generateQuestion.
  set (av := availableCountries bank mode n) in *.
  assert (Hlt : (random_floor (index_draw r) (length av) < length av)%nat).
  { apply random_floor_lt. destruct av; [done | simpl; lia]. }
  apply lookup_lt_is_Some_2 in Hlt as [correct Hc].
  exists correct. rewrite Hc. split; [|reflexivity].
  eapply list_elem_of_lookup_2; eauto.
Qed.

Lemma generateQuestion_inv (r : Random) (mode : Difficulty) (n : Z)
    (q : Question.t) :
  generateQuestion bank r mode n = Some q ->
  exists correct,
    correct ∈ availableCountries bank mode n /\
    q = {| Question.country := CountryCapital.country correct;
           Question.capital := CountryCapital.capital correct;
           Question.options :=
             option_sort r (CountryCapital.capital correct ::
                            take 3 (distractor_sort r (others bank correct)));
           Question.difficulty :=
             Some (default easy (CountryCapital.difficulty correct)) |}.
Proof.
  unfold generateQuestion.
  destruct (availableCountries bank mode n !! _) as [correct|] eqn:Hc; [|done].
  intros [= <-]. exists correct. split; [|reflexivity].
  eapply list_elem_of_lookup_2; eauto.
Qed.

(** *** Banks whose capitals are pairwise distinct *)

Lemma others_NoDup (x : CountryCapital.t) :
  NoDup (CountryCapital.capital <$> bank) -> NoDup (others bank x).
Proof.
  intros Hnd. eapply sublist_NoDup; [exact Hnd|].
  unfold others. apply fmap_sublist, sublist_filter.
Qed.

Lemma others_not_elem (x : CountryCapital.t) :
  CountryCapital.capital x ∉ others bank x.
Proof.
  unfold others. intros (y & Hy & Hin)%list_elem_of_fmap.
  apply list_elem_of_filter in Hin as [Hne _]. congruence.
Qed.

End Generator_facts.

Lemma filter_keep_all {A} (P : A -> Prop) `{!forall a, Decision (P a)} (l : list A) :
  (forall a, a ∈ l -> P a) -> filter P l = l.
Proof.
  induction l as [|a l IH]; intros Hall; [reflexivity|].
  rewrite filter_cons_True by (apply Hall; left).
  f_equal. apply IH. intros b Hb. apply Hall. by right.
Qed.

(** With distinct capitals, exactly one fact is removed from the
    distractor pool. *)
Lemma others_length (bank : list CountryCapital.t) (x : CountryCapital.t) :
  NoDup (CountryCapital.capital <$> bank) -> x ∈ bank ->
  S (length (others bank x)) = length bank.
Proof.
  unfold others. rewrite length_fmap.
  induction bank as [|a l IH]; intros Hnd Hx; [by apply elem_of_nil in Hx|].
  rewrite fmap_cons in Hnd. apply NoDup_cons in Hnd as [Ha Hnd].
  apply elem_of_cons in Hx as [->|Hx].
  - rewrite filter_cons_False by (intros H; by apply H).
    rewrite filter_keep_all; [reflexivity|].
    intros b Hb Heq. apply Ha. rewrite <- Heq.
    by apply list_elem_of_fmap_2.
  - rewrite filter_cons_True.
    + simpl. f_equal. by apply IH.
    + intros Heq. apply Ha. rewrite Heq. by apply list_elem_of_fmap_2.
Qed.

Lemma NoDup_occurs_once {A} `{EqDecision A} (x : A) (l : list A) :
  NoDup l -> x ∈ l -> length (filter (fun o => o = x) l) = 1%nat.
Proof.
  induction l as [|a l IH]; intros Hnd Hx; [by apply elem_of_nil in Hx|].
  apply NoDup_cons in Hnd as [Ha Hnd].
  apply elem_of_cons in Hx as [->|Hx].
  - rewrite filter_cons_True by reflexivity. simpl. f_equal.
    destruct (filter (fun o => o = a) l) as [|b k] eqn:Hf; [reflexivity|].
    assert (Hb : b ∈ filter (fun o => o = a) l) by (rewrite Hf; left).
    apply list_elem_of_filter in Hb as [-> Hb]. contradiction.
  - rewrite filter_cons_False; [by apply IH|].
    intros ->. contradiction.
Qed.

(** The option list built around a fact of a bank with distinct
    capitals, whatever the two sorts do. *)
Lemma options_valid (bank : list CountryCapital.t) (r : Random)
    (correct : CountryCapital.t) :
  NoDup (CountryCapital.capital <$> bank) ->
  (4 <= length bank)%nat ->
  correct ∈ bank ->
  let options :=
    option_sort r (CountryCapital.capital correct ::
                   take 3 (distractor_sort r (others bank correct))) in
  length options = 4%nat
  /\ NoDup options
  /\ CountryCapital.capital correct ∈ options.
Proof.
  intros Hnd Hlen Hin options.
  pose proof (others_length bank correct Hnd Hin) as Hothers.
  set (sorted := distractor_sort r (others bank correct)) in *.
  assert (Hperm : sorted ≡ₚ others bank correct) by apply shuffle_perm.
  assert (Hthree : length (take 3 sorted) = 3%nat).
  { apply length_take_le. rewrite Hperm. lia. }
  assert (Hnd3 : NoDup (take 3 sorted)).
  { eapply sublist_NoDup; [|apply sublist_take].
    rewrite Hperm. by apply others_NoDup. }
  assert (Hfresh : CountryCapital.capital correct ∉ take 3 sorted).
  { intros Hc. apply (others_not_elem bank correct).
    rewrite <- Hperm. eapply elem_of_sublist; [exact Hc | apply sublist_take]. }
  assert (Hopts : options ≡ₚ CountryCapital.capital correct :: take 3 sorted)
    by apply shuffle_perm.
  rewrite Hopts. repeat split.
  - simpl. by rewrite Hthree.
  - by apply NoDup_cons.
  - left.
Qed.

Lemma wellFormedBank_available (bank : list CountryCapital.t)
    (mode : Difficulty) (n : Z) :
  wellFormedBank bank -> availableCountries bank mode n <> [].
Proof.
  intros (_ & _ & c & Hc & He) Hnil.
  pose proof (availableCountries_easy bank mode n c Hc He) as Hin.
  rewrite Hnil in Hin. by apply elem_of_nil in Hin.
Qed.

Lemma generateQuestion_wellFormed (bank : list CountryCapital.t) (r : Random)
    (mode : Difficulty) (n : Z) :
  wellFormedBank bank ->
  exists q, generateQuestion bank r mode n = Some q /\ validQuestion q.
Proof.
  intros Hwf.
  destruct (generateQuestion_Some bank r mode n
              (wellFormedBank_available bank mode n Hwf))
    as (correct & Hav & Hq).
  destruct Hwf as (Hnd & Hlen & _).
  apply availableCountries_sub in Hav.
  destruct (options_valid bank r correct Hnd Hlen Hav) as (H4 & Hd & Hc).
  eexists. split; [exact Hq|].
  unfold validQuestion. simpl. repeat split; try assumption.
  by apply NoDup_occurs_once.
Qed.

Lemma sampleBank_wellFormed : wellFormedBank sampleBank.
Proof.
  unfold wellFormedBank, sampleBank. simpl. split; [|split].
  - apply (bool_decide_unpack _). vm_compute. exact I.
  - lia.
  - eexists. split; [left|reflexivity].
Defined.



(** The generator does not compare capitals with one another: in a bank
    that lists a capital twice, an option can be repeated. *)
Example sharedCapitalBank_repeats_option :
  Question.options <$> generateQuestion sharedCapitalBank firstRandom easy 1
  = Some ["Paris"; "Jerusalem"; "Jerusalem"; "Tokyo"].
Proof. vm_compute. reflexivity. Qed.

(** C6: the list the correct answer is drawn from follows the ramp of
    the selected mode.  Easy mode: the facts tagged easy for questions 1
    to 20, those tagged easy or medium for questions 21 to 40, every fact
    from question 41 on.  Medium mode: easy or medium for questions 1 to
    30, every fact from question 31 on.  Hard mode: every fact at every
    question.  The question returned is built from a fact of that list. *)
Theorem availableCountries_ramp (bank : list CountryCapital.t) (r : Random)
    (n : Z) :
  let easyOnly :=
    filter (fun c => CountryCapital.difficulty c = Some easy) bank in
  let easyOrMedium :=
    filter (fun c => CountryCapital.difficulty c = Some easy
                     \/ CountryCapital.difficulty c = Some medium) bank in
  (1 <= n <= 20 -> availableCountries bank easy n = easyOnly)
  /\ (21 <= n <= 40 -> availableCountries bank easy n = easyOrMedium)
  /\ (41 <= n -> availableCountries bank easy n = bank)
  /\ (1 <= n <= 30 -> availableCountries bank medium n = easyOrMedium)
  /\ (31 <= n -> availableCountries bank medium n = bank)
  /\ availableCountries bank hard n = bank
  /\ forall mode q,
       generateQuestion bank r mode n = Some q ->
       exists c,
         c ∈ availableCountries bank mode n
         /\ Question.country q = CountryCapital.country c
         /\ Question.capital q = CountryCapital.capital c.
Proof.
  intros easyOnly easyOrMedium. unfold availableCountries.
  repeat split.
  - intros Hn. destruct (Z.leb_spec n 20); [reflexivity | lia].
  - intros Hn. destruct (Z.leb_spec n 20); [lia|].
    destruct (Z.leb_spec n 40); [reflexivity | lia].
  - intros Hn. destruct (Z.leb_spec n 20); [lia|].
    destruct (Z.leb_spec n 40); [lia | reflexivity].
  - intros Hn. destruct (Z.leb_spec n 30); [reflexivity | lia].
  - intros Hn. destruct (Z.leb_spec n 30); [lia | reflexivity].
  - intros mode q Hq.
    destruct (generateQuestion_inv bank r mode n q Hq) as (c & Hc & ->).
    exists c. repeat split. exact Hc.
Qed.

Lemma availableCountries_ramp_witness :
  (1 <= 20 <= 20
   /\ CountryCapital.country <$> availableCountries sampleBank easy 20
      = ["France"; "Japan"])
  /\ (21 <= 21 <= 40
      /\ CountryCapital.country <$> availableCountries sampleBank easy 21
         = ["France"; "Japan"; "Kenya"])
  /\ (41 <= 41
      /\ availableCountries sampleBank easy 41 = sampleBank)
  /\ (1 <= 30 <= 30
      /\ CountryCapital.country <$> availableCountries sampleBank medium 30
         = ["France"; "Japan"; "Kenya"])
  /\ (31 <= 31
      /\ availableCountries sampleBank medium 31 = sampleBank).
Proof.
  pose proof (availableCountries_ramp sampleBank sampleRandom 20) as H20.
  pose proof (availableCountries_ramp sampleBank sampleRandom 21) as H21.
  pose proof (availableCountries_ramp sampleBank sampleRandom 41) as H41.
  pose proof (availableCountries_ramp sampleBank sampleRandom 30) as H30.
  pose proof (availableCountries_ramp sampleBank sampleRandom 31) as H31.
  cbv zeta in H20, H21, H41, H30, H31.
  destruct H20 as (H20 & _).
  destruct H21 as (_ & H21 & _).
  destruct H41 as (_ & _ & H41 & _).
  destruct H30 as (_ & _ & _ & H30 & _).
  destruct H31 as (_ & _ & _ & _ & H31 & _).
  split; [split; [lia|] | split; [split; [lia|] | split; [split; [lia|] |
    split; [split; [lia|] | split; [lia|]]]]].
  - rewrite H20 by lia. reflexivity.
  - rewrite H21 by lia. reflexivity.
  - apply H41. lia.
  - rewrite H30 by lia. reflexivity.
  - apply H31. lia.
Defined.

(** ** Starting a game *)

Lemma armed_true (s : State) :
  armed s = true <->
  screen s = game /\ is_Some (currentQuestion s) /\ isAnswered s = false.
Proof.
  unfold armed. rewrite !andb_true_iff, !bool_decide_eq_true, negb_true_iff.
  tauto.
Qed.

Lemma startGame_Some (bank : list CountryCapital.t) (r : Random)
    (mode : Difficulty) (s : State) (q : Question.t) :
  generateQuestion bank r mode 1 = Some q ->
  startGame bank r mode s =
  Some (mkState game (speedMode s) 0 3 1 0 (getTimeByDifficulty mode) mode
          (Some q) None false "" None (timerRef s) (timeoutHandledRef s)
          (scheduled s)).
Proof. intros Hq. unfold startGame. rewrite Hq. reflexivity. Qed.

(** C8: from any state, starting a game with a tier sets the score to 0,
    the hearts to 3, the combo to 0 and the question number to 1, installs
    a freshly generated valid question for index 1 and sets the clock to
    the duration of the mode (easy 7, medium 4, hard 2 seconds); after the
    commit the round is armed with its interval running. *)
Theorem startGame_resets (bank : list CountryCapital.t) (r : Random)
    (mode : Difficulty) (s : State) :
  wellFormedBank bank ->
  exists s' q,
    step bank (EvStartGame r mode) s = Some s'
    /\ score s' = 0 /\ hearts s' = 3 /\ combo s' = 0
    /\ questionNumber s' = 1
    /\ currentDifficulty s' = mode
    /\ generateQuestion bank r mode 1 = Some q
    /\ currentQuestion s' = Some q
    /\ validQuestion q
    /\ timeLeft s' = match mode with easy => 7 | medium => 4 | hard => 2 end
    /\ isAnswered s' = false /\ selectedAnswer s' = None
    /\ correctAnswer s' = None /\ feedback s' = ""
    /\ screen s' = game
    /\ timerRef s' = true /\ timeoutHandledRef s' = false.
Proof.
  intros Hwf.
  destruct (generateQuestion_wellFormed bank r mode 1 Hwf) as (q & Hq & Hv).
  eexists _, q. unfold step, handle.
  rewrite (startGame_Some bank r mode s q Hq).
  match goal with |- context [Some ?st] => set (s1 := st) end.
  assert (Harmed : armed s1 = true) by (apply armed_true; simpl; eauto).
  change (timerEffect <$> Some s1) with (Some (timerEffect s1)).
  unfold timerEffect. rewrite Harmed.
  split; [reflexivity|]. simpl.
  destruct mode;
    repeat match goal with |- _ /\ _ => split end;
    first [assumption | reflexivity].
Qed.

Lemma startGame_resets_witness :
  wellFormedBank sampleBank
  /\ exists s' q,
       step sampleBank (EvStartGame sampleRandom hard) initialState = Some s'
       /\ score s' = 0 /\ hearts s' = 3 /\ combo s' = 0
       /\ questionNumber s' = 1
       /\ currentDifficulty s' = hard
       /\ generateQuestion sampleBank sampleRandom hard 1 = Some q
       /\ currentQuestion s' = Some q
       /\ validQuestion q
       /\ timeLeft s' = 2
       /\ isAnswered s' = false /\ selectedAnswer s' = None
       /\ correctAnswer s' = None /\ feedback s' = ""
       /\ screen s' = game
       /\ timerRef s' = true /\ timeoutHandledRef s' = false.
Proof.
  split; [exact sampleBank_wellFormed|].
  apply (startGame_resets sampleBank sampleRandom hard initialState).
  exact sampleBank_wellFormed.
Defined.

(** ** Resolving a round *)

(** C3: on a correct answer the score grows by
    [floor(basePoints * modeMultiplier * comboMultiplier)], with the base
    points of the question's own tag (10 when the tag is absent), the
    multiplier of the selected mode and the combo multiplier at the combo
    length after the increment.  A hard question in hard mode that brings
    the combo to 5 is worth 67; an easy question in easy mode on a first
    correct answer is worth 10. *)
Theorem correct_answer_award (answer : string) (s : State) (q : Question.t) :
  isAnswered s = false ->
  currentQuestion s = Some q ->
  answer = Question.capital q ->
  score (handleAnswer answer s)
  = score s + awardedPoints_spec (Question.difficulty q)
                                 (currentDifficulty s) (combo s + 1)
  /\ awardedPoints_spec None (currentDifficulty s) (combo s + 1)
     = awardedPoints_spec (Some easy) (currentDifficulty s) (combo s + 1)
  /\ (Question.difficulty q = Some hard -> currentDifficulty s = hard ->
      combo s + 1 = 5 ->
      score (handleAnswer answer s) = score s + 67)
  /\ (Question.difficulty q = Some easy -> currentDifficulty s = easy ->
      combo s = 0 ->
      score (handleAnswer answer s) = score s + 10).
Proof.
  intros Ha Hq Hans.
  rewrite (handleAnswer_correct answer s q Ha Hq Hans). simpl.
  rewrite finalPoints_exact.
  split; [reflexivity|]. split; [reflexivity|]. split.
  - intros -> -> ->. reflexivity.
  - intros -> -> ->. reflexivity.
Qed.

Lemma correct_answer_award_witness :
  score (handleAnswer "Thimphu" sampleRound) = 180 + 67
  /\ score (handleAnswer "Paris" firstRound) = 0 + 10.
Proof.
  split.
  - apply (correct_answer_award "Thimphu" sampleRound sampleQuestion);
      reflexivity.
  - eapply (correct_answer_award "Paris" firstRound); reflexivity.
Defined.

(** C4: the combo multiplier is 1.0 below 3, 1.2 below 5, 1.5 below 10,
    2.0 below 20 and 2.5 from 20 on (the binary64 values of these
    literals); it never decreases when the combo grows, and it changes
    exactly on reaching 3, 5, 10 and 20.  On a correct answer it is taken
    at the combo length after the increment. *)
Theorem comboMultiplier_steps (c c' : Z) (answer : string) (s : State)
    (q : Question.t) :
  (c < 3 -> getComboMultiplier c = f64_literal 1 0)
  /\ (3 <= c < 5 -> getComboMultiplier c = f64_literal 1 2)
  /\ (5 <= c < 10 -> getComboMultiplier c = f64_literal 1 5)
  /\ (10 <= c < 20 -> getComboMultiplier c = f64_literal 2 0)
  /\ (20 <= c -> getComboMultiplier c = f64_literal 2 5)
  /\ ((f64_to_Q (f64_literal 1 0) == 1)%Q
      /\ (f64_to_Q (f64_literal 1 5) == 3 # 2)%Q
      /\ (f64_to_Q (f64_literal 2 0) == 2)%Q
      /\ (f64_to_Q (f64_literal 2 5) == 5 # 2)%Q
      /\ ((6 # 5) - (1 # 2 ^ 53) <= f64_to_Q (f64_literal 1 2) <= 6 # 5)%Q)
  /\ (c <= c' -> SFleb (getComboMultiplier c) (getComboMultiplier c') = true)
  /\ (getComboMultiplier (c - 1) <> getComboMultiplier c
      <-> c = 3 \/ c = 5 \/ c = 10 \/ c = 20)
  /\ (isAnswered s = false -> currentQuestion s = Some q ->
      answer = Question.capital q ->
      combo (handleAnswer answer s) = combo s + 1
      /\ score (handleAnswer answer s)
         = score s
           + Math_floor
               (f64_mul
                  (f64_mul (f64_of_Z (getScoreByDifficulty
                                        (Question.difficulty q)))
                           (getModeMultiplier (currentDifficulty s)))
                  (getComboMultiplier (combo s + 1)))).
Proof.
  split; [|split; [|split; [|split; [|split; [|split; [|split; [|split]]]]]]].
  - intros H. unfold getComboMultiplier. combo_cases c; lia || reflexivity.
  - intros H. unfold getComboMultiplier. combo_cases c; lia || reflexivity.
  - intros H. unfold getComboMultiplier. combo_cases c; lia || reflexivity.
  - intros H. unfold getComboMultiplier. combo_cases c; lia || reflexivity.
  - intros H. unfold getComboMultiplier. combo_cases c; lia || reflexivity.
  - exact f64_literal_values.
  - apply getComboMultiplier_mono.
  - apply getComboMultiplier_jump.
  - intros Ha Hq Hans.
    rewrite (handleAnswer_correct answer s q Ha Hq Hans). simpl.
    split; reflexivity.
Qed.

Lemma comboMultiplier_steps_witness :
  getComboMultiplier 2 = f64_literal 1 0
  /\ getComboMultiplier 4 = f64_literal 1 2
  /\ getComboMultiplier 9 = f64_literal 1 5
  /\ getComboMultiplier 19 = f64_literal 2 0
  /\ getComboMultiplier 20 = f64_literal 2 5
  /\ SFleb (getComboMultiplier 4) (getComboMultiplier 5) = true
  /\ combo (handleAnswer "Thimphu" sampleRound) = 4 + 1.
Proof.
  pose proof (comboMultiplier_steps 2 2 "Thimphu" sampleRound sampleQuestion)
    as (H2 & _).
  pose proof (comboMultiplier_steps 4 5 "Thimphu" sampleRound sampleQuestion)
    as (_ & H4 & _ & _ & _ & _ & Hmono & _ & Hinc).
  pose proof (comboMultiplier_steps 9 9 "Thimphu" sampleRound sampleQuestion)
    as (_ & _ & H9 & _).
  pose proof (comboMultiplier_steps 19 19 "Thimphu" sampleRound sampleQuestion)
    as (_ & _ & _ & H19 & _).
  pose proof (comboMultiplier_steps 20 20 "Thimphu" sampleRound sampleQuestion)
    as (_ & _ & _ & _ & H20 & _).
  split; [apply H2; lia|].
  split; [apply H4; lia|].
  split; [apply H9; lia|].
  split; [apply H19; lia|].
  split; [apply H20; lia|].
  split; [apply Hmono; lia|].
  apply Hinc; reflexivity.
Defined.

(** C5: in an armed round, whatever the combo was, a wrong answer sets
    the combo to 0 and takes exactly one heart, and so does the timeout
    (the tick that finds one second left). *)
Theorem miss_resets_combo_and_costs_a_heart (answer : string) (s : State) :
  isAnswered s = false ->
  (Some answer <> Question.capital <$> currentQuestion s ->
   combo (handleAnswer answer s) = 0
   /\ hearts (handleAnswer answer s) = hearts s - 1)
  /\ (timeoutHandledRef s = false -> 0 < timeLeft s <= 1 ->
      combo (tick s) = 0 /\ hearts (tick s) = hearts s - 1).
Proof.
  intros Ha. split.
  - intros Hne. rewrite (handleAnswer_wrong answer s Ha Hne).
    split; reflexivity.
  - intros Hl Ht. rewrite (tick_timeout s Ha Hl Ht). split; reflexivity.
Qed.

Lemma miss_resets_combo_and_costs_a_heart_witness :
  (combo (handleAnswer "Paris" sampleRound) = 0
   /\ hearts (handleAnswer "Paris" sampleRound) = 1 - 1)
  /\ (combo (tick sampleRound) = 0 /\ hearts (tick sampleRound) = 1 - 1).
Proof.
  pose proof (miss_resets_combo_and_costs_a_heart "Paris" sampleRound
                eq_refl) as (Hwrong & Htimeout).
  split.
  - apply Hwrong. discriminate.
  - apply Htimeout; [reflexivity | simpl; lia].
Defined.

Lemma timerEffect_questionNumber (s : State) :
  questionNumber (timerEffect s) = questionNumber s.
Proof. unfold timerEffect. destruct (armed s); reflexivity. Qed.


Lemma tick_cases (s : State) : tick_outcome s (tick s).
Proof.
  destruct (isAnswered s) eqn:Ha.
  { rewrite tick_resolved by auto. constructor. auto. }
  destruct (timeoutHandledRef s) eqn:Hl.
  { rewrite tick_resolved by auto. constructor. auto. }
  destruct (Z_lt_le_dec 1 (timeLeft s)).
  { rewrite tick_countdown by assumption. by constructor. }
  destruct (Z_lt_le_dec 0 (timeLeft s)).
  { rewrite tick_timeout by (assumption || lia). constructor; assumption || lia. }
  rewrite tick_expired by assumption. by constructor.
Qed.

Lemma handleAnswer_cases (answer : string) (s : State) :
  answer_outcome answer s (handleAnswer answer s).
Proof.
  destruct (isAnswered s) eqn:Ha.
  { rewrite handleAnswer_resolved by assumption. by constructor. }
  destruct (decide (Some answer = Question.capital <$> currentQuestion s))
    as [He|Hne].
  - destruct (currentQuestion s) as [q|] eqn:Hq; [|discriminate].
    injection He as He.
    rewrite (handleAnswer_correct answer s q Ha Hq He).
    by apply answer_correct.
  - rewrite (handleAnswer_wrong answer s Ha Hne). by constructor.
Qed.

Lemma handleAnswer_questionNumber (answer : string) (s : State) :
  questionNumber (handleAnswer answer s) = questionNumber s.
Proof. destruct (handleAnswer_cases answer s); reflexivity. Qed.

Lemma tick_questionNumber (s : State) :
  questionNumber (tick s) = questionNumber s.
Proof. destruct (tick_cases s); reflexivity. Qed.

(** Which events move the question number, and how. *)
Lemma step_questionNumber (bank : list CountryCapital.t) (ev : Event)
    (s s' : State) :
  step bank ev s = Some s' ->
  match ev with
  | EvStartGame _ _ => questionNumber s' = 1
  | EvFire _ _ =>
      questionNumber s' = questionNumber s
      \/ questionNumber s' = questionNumber s + 1
  | _ => questionNumber s' = questionNumber s
  end.
Proof.
  unfold step. intros Hstep.
  destruct (handle bank ev s) as [s1|] eqn:Hh; [|discriminate].
  injection Hstep as <-. rewrite timerEffect_questionNumber.
  destruct ev; simpl in Hh.
  - unfold startGame in Hh. destruct (generateQuestion _ _ _ _); [|discriminate].
    by injection Hh as <-.
  - injection Hh as <-. apply handleAnswer_questionNumber.
  - injection Hh as <-. destruct (timerRef s); [apply tick_questionNumber|done].
  - unfold fire in Hh. destruct (scheduled s !! k) as [[[] ?]|].
    + unfold nextQuestion in Hh. simpl in Hh.
      destruct (hearts s <=? 0); [injection Hh as <-; by left|].
      destruct (generateQuestion _ _ _ _); [|discriminate].
      injection Hh as <-. by right.
    + injection Hh as <-. by left.
    + injection Hh as <-. by left.
  - injection Hh as <-. unfold handleBack.
    repeat case_match; try reflexivity. by rewrite clearTimer_eq.
  - by injection Hh as <-.
  - by injection Hh as <-.
  - unfold renderGame in Hh. repeat case_match; try discriminate;
      by injection Hh as <-.
Qed.

(** C10: resolving a round changes only the fields of its outcome.  A
    correct answer changes the score, the combo and the feedback and
    leaves hearts and question number as they were; a wrong answer or a
    timeout changes hearts, combo, feedback and the recorded correct
    answer and leaves score and question number as they were.  Besides
    these, the resolution itself is recorded ([isAnswered], the selected
    answer, the stopped interval, the latch and the clock at 0 for a
    timeout, the scheduled callback).  The question number moves only when
    a scheduled [nextQuestion] runs (by one) or a game is started (to 1). *)
Theorem resolution_frame (bank : list CountryCapital.t) (answer : string)
    (s : State) (q : Question.t) (ev : Event) (s' : State) :
  (isAnswered s = false -> currentQuestion s = Some q ->
   answer = Question.capital q ->
   handleAnswer answer s =
   {| screen := screen s; speedMode := speedMode s;
      score := score s + finalPoints (Question.difficulty q)
                                     (currentDifficulty s) (combo s + 1);
      hearts := hearts s; questionNumber := questionNumber s;
      combo := combo s + 1; timeLeft := timeLeft s;
      currentDifficulty := currentDifficulty s;
      currentQuestion := currentQuestion s;
      selectedAnswer := Some answer; isAnswered := true;
      feedback := "정답입니다!"; correctAnswer := correctAnswer s;
      timerRef := false; timeoutHandledRef := timeoutHandledRef s;
      scheduled := scheduled s ++ [(CallNextQuestion, delayOf s)] |})
  /\ (isAnswered s = false ->
      Some answer <> Question.capital <$> currentQuestion s ->
      handleAnswer answer s =
      {| screen := screen s; speedMode := speedMode s;
         score := score s; hearts := hearts s - 1;
         questionNumber := questionNumber s; combo := 0;
         timeLeft := timeLeft s; currentDifficulty := currentDifficulty s;
         currentQuestion := currentQuestion s;
         selectedAnswer := Some answer; isAnswered := true;
         feedback := "틀렸습니다!";
         correctAnswer := capitalOrNull (currentQuestion s);
         timerRef := false; timeoutHandledRef := timeoutHandledRef s;
         scheduled := scheduled s ++ [afterMiss s] |})
  /\ (isAnswered s = false -> timeoutHandledRef s = false ->
      0 < timeLeft s <= 1 ->
      tick s =
      {| screen := screen s; speedMode := speedMode s;
         score := score s; hearts := hearts s - 1;
         questionNumber := questionNumber s; combo := 0;
         timeLeft := 0; currentDifficulty := currentDifficulty s;
         currentQuestion := currentQuestion s;
         selectedAnswer := selectedAnswer s; isAnswered := true;
         feedback := "시간 초과입니다!";
         correctAnswer := Question.capital <$> currentQuestion s;
         timerRef := false; timeoutHandledRef := true;
         scheduled := scheduled s ++ [afterMiss s] |})
  /\ (step bank ev s = Some s' ->
      match ev with
      | EvStartGame _ _ => questionNumber s' = 1
      | EvFire _ _ =>
          questionNumber s' = questionNumber s
          \/ questionNumber s' = questionNumber s + 1
      | _ => questionNumber s' = questionNumber s
      end).
Proof.
  split; [|split; [|split]].
  - apply handleAnswer_correct.
  - apply handleAnswer_wrong.
  - apply tick_timeout.
  - apply step_questionNumber.
Qed.

Lemma resolution_frame_witness :
  (hearts (handleAnswer "Thimphu" sampleRound) = 1
   /\ questionNumber (handleAnswer "Thimphu" sampleRound) = 9)
  /\ (score (handleAnswer "Paris" sampleRound) = 180
      /\ questionNumber (handleAnswer "Paris" sampleRound) = 9)
  /\ (score (tick sampleRound) = 180
      /\ questionNumber (tick sampleRound) = 9)
  /\ questionNumber (timerEffect (handleAnswer "Paris" sampleRound)) = 9.
Proof.
  pose proof (resolution_frame sampleBank "Thimphu" sampleRound
                sampleQuestion EvTick sampleRound) as (Hc & _).
  pose proof (resolution_frame sampleBank "Paris" sampleRound
                sampleQuestion (EvAnswer "Paris")
                (timerEffect (handleAnswer "Paris" sampleRound)))
    as (_ & Hw & Ht & Hq).
  split; [|split; [|split]].
  - rewrite Hc by reflexivity. split; reflexivity.
  - rewrite Hw by (reflexivity || discriminate). split; reflexivity.
  - rewrite Ht by (reflexivity || (simpl; lia)). split; reflexivity.
  - apply Hq. reflexivity.
Defined.

(** ** The invariant of the commit *)



Lemma Inv_initialState : Inv initialState.
Proof. repeat split; simpl; intros; discriminate. Qed.

(** No handler sets the latch while there is no question. *)
Lemma handle_latch (bank : list CountryCapital.t) (ev : Event) (s s1 : State) :
  Inv s -> handle bank ev s = Some s1 ->
  currentQuestion s1 = None -> timeoutHandledRef s1 = false.
Proof.
  intros (Htimer & Hnone & _) Hh.
  destruct ev; simpl in Hh.
  - unfold startGame in Hh.
    destruct (generateQuestion _ _ _ _); [|discriminate].
    injection Hh as <-. discriminate.
  - injection Hh as <-.
    destruct (handleAnswer_cases answer s); simpl; auto.
  - injection Hh as <-. destruct (timerRef s) eqn:Ht; [|auto].
    destruct (Htimer eq_refl) as (Harmed & _).
    apply armed_true in Harmed as (_ & [q Hq] & _).
    destruct (tick_cases s); simpl; congruence.
  - unfold fire in Hh. destruct (scheduled s !! k) as [[[] ?]|].
    + unfold nextQuestion in Hh. simpl in Hh.
      destruct (hearts s <=? 0); [injection Hh as <-; simpl; auto|].
      destruct (generateQuestion _ _ _ _); [|discriminate].
      injection Hh as <-. discriminate.
    + injection Hh as <-. simpl. auto.
    + injection Hh as <-. auto.
  - injection Hh as <-. unfold handleBack.
    repeat case_match; try rewrite clearTimer_eq; simpl; auto.
  - injection Hh as <-. simpl. auto.
  - injection Hh as <-. simpl. auto.
  - unfold renderGame in Hh.
    destruct (bool_decide (screen s = game)); [|injection Hh as <-; auto].
    destruct (currentQuestion s) eqn:Hq; [injection Hh as <-; congruence|].
    destruct (generateQuestion _ _ _ _); [|discriminate].
    injection Hh as <-. discriminate.
Qed.

Lemma timerEffect_Inv (s : State) :
  (currentQuestion s = None -> timeoutHandledRef s = false) ->
  Inv (timerEffect s).
Proof.
  intros Hnone. unfold timerEffect, Inv.
  destruct (armed s) eqn:Harmed; simpl.
  - split; [|split]; auto. intros _ [=].
  - split; [intros [=]|]. split; [exact Hnone|].
    intros Hgame Hlatch.
    destruct (isAnswered s) eqn:Ha; [reflexivity|].
    destruct (currentQuestion s) as [q|] eqn:Hq.
    + assert (armed s = true) by (apply armed_true; eauto). congruence.
    + rewrite Hnone in Hlatch by reflexivity. discriminate.
Qed.

Lemma step_Inv (bank : list CountryCapital.t) (ev : Event) (s s' : State) :
  Inv s -> step bank ev s = Some s' -> Inv s'.
Proof.
  intros HI Hstep. unfold step in Hstep.
  destruct (handle bank ev s) as [s1|] eqn:Hh; [|discriminate].
  injection Hstep as <-.
  apply timerEffect_Inv. eapply handle_latch; eauto.
Qed.

Lemma reachable_Inv (bank : list CountryCapital.t) (s : State) :
  reachable bank s -> Inv s.
Proof.
  induction 1 as [|ev s s' _ IH Hstep]; [apply Inv_initialState|].
  eapply step_Inv; eauto.
Qed.


(** ** One resolution per round *)











Lemma startedRound_reachable : reachable sampleBank startedRound.
Proof.
  apply (reachable_step sampleBank (EvStartGame sampleRandom easy)
           initialState); [apply reachable_init | vm_compute; reflexivity].
Defined.

Lemma answeredRound_reachable : reachable sampleBank answeredRound.
Proof.
  apply (reachable_step sampleBank (EvAnswer "Berlin") startedRound);
    [apply startedRound_reachable | vm_compute; reflexivity].
Defined.



(** A run of the sample game: six ticks, a wrong answer, then a late
    tick and a second answer, which change nothing. *)
Example sample_run :
  (fun s => (hearts s, score s, combo s, timeLeft s, isAnswered s))
    <$> run sampleBank
          [EvTick; EvTick; EvTick; EvTick; EvTick; EvTick;
           EvAnswer "Berlin"; EvTick; EvAnswer "Tokyo"] startedRound
  = Some (2, 0, 0, 1, true).
Proof. vm_compute. reflexivity. Qed.

(** The same round lost on time: the seventh tick is the timeout, and a
    click that arrives after it changes nothing. *)
Example sample_timeout :
  (fun s => (hearts s, score s, combo s, timeLeft s, isAnswered s,
             timeoutHandledRef s, feedback s))
    <$> run sampleBank
          [EvTick; EvTick; EvTick; EvTick; EvTick; EvTick; EvTick;
           EvAnswer "Tokyo"; EvTick] startedRound
  = Some (2, 0, 0, 0, true, true, "시간 초과입니다!").
Proof. vm_compute. reflexivity. Qed.

(** ** Reading back what [toString] wrote *)

Lemma of_uint_acc_value (d : Decimal.uint) (p : positive) :
  Z.pos (Pos.of_uint_acc d p) = uint_value (Z.pos p) d.
Proof.
  revert p. induction d; intros p; simpl; [reflexivity | ..];
    rewrite IHd; f_equal; lia.
Qed.

Lemma of_uint_value (d : Decimal.uint) : Z.of_N (Pos.of_uint d) = uint_value 0 d.
Proof.
  induction d; simpl; try reflexivity; try exact IHd;
    rewrite of_uint_acc_value; reflexivity.
Qed.

Ltac eval_digit :=
  match goal with
  | |- context [digit_value ?c] =>
      let v := eval vm_compute in (digit_value c) in
      change (digit_value c) with v; cbv iota beta
  end.

Lemma parse_digits_uint (d : Decimal.uint) (acc : option Z) :
  parse_digits acc (NilEmpty.string_of_uint d)
  = match d with
    | Decimal.Nil => acc
    | _ => Some (uint_value (default 0 acc) d)
    end.
Proof.
  revert acc. induction d; intros acc; [reflexivity | ..];
    cbn [NilEmpty.string_of_uint parse_digits uint_value];
    eval_digit; rewrite IHd; destruct d; reflexivity.
Qed.

Lemma parseInt_digits (d : Decimal.uint) :
  d <> Decimal.Nil ->
  parseInt (NilEmpty.string_of_uint d) = Int (uint_value 0 d)
  /\ parseInt (String "-" (NilEmpty.string_of_uint d)) = Int (- uint_value 0 d).
Proof.
  intros Hd.
  pose proof (parse_digits_uint d None) as Hp.
  change (default 0 (@None Z)) with 0 in Hp.
  destruct d; [done | ..]; cbn [NilEmpty.string_of_uint] in *;
    (split;
     [ match goal with
       | |- parseInt ?str = _ =>
           change (parseInt str)
             with (match parse_digits None str with
                   | Some n => Int (1 * n)
                   | None => NaN
                   end)
       end
     | match goal with
       | |- parseInt (String _ ?str) = _ =>
           change (parseInt (String "-" str))
             with (match parse_digits None str with
                   | Some n => Int (-1 * n)
                   | None => NaN
                   end)
       end ];
     rewrite Hp; f_equal; lia).
Qed.

(** [parseInt] reads back every integer that [toString] prints. *)
Lemma parseInt_toString (n : Z) : parseInt (toString n) = Int n.
Proof.
  unfold toString. destruct n as [|p|p]; [reflexivity | ..];
    cbn [Z.to_int NilZero.string_of_int];
    pose proof (Unsigned.to_uint_nonnil p) as Hnil;
    pose proof (of_uint_value (Pos.to_uint p)) as Hv;
    rewrite Unsigned.of_to in Hv; cbn in Hv;
    destruct (parseInt_digits (Pos.to_uint p) Hnil) as (Hpos & Hneg);
    unfold NilZero.string_of_uint;
    destruct (Pos.to_uint p) eqn:Hu; try done.
  all: first [rewrite Hpos | rewrite Hneg]; rewrite <- Hv; reflexivity.
Qed.

Lemma toString_nonempty (n : Z) : toString n <> "".
Proof.
  unfold toString. destruct n as [|p|p]; [done | |done].
  cbn [Z.to_int NilZero.string_of_int]. unfold NilZero.string_of_uint.
  pose proof (Unsigned.to_uint_nonnil p).
  destruct (Pos.to_uint p); done.
Qed.

(** ** The high-score store *)

Lemma getHighScore_lookup (st : Storage) :
  denied st = false ->
  getHighScore st
  = match items st !! "highScore" with
    | Some stored => if bool_decide (stored = "") then Int 0 else parseInt stored
    | None => Int 0
    end.
Proof. intros Hd. unfold getHighScore, getItem. rewrite Hd. reflexivity. Qed.

Lemma getHighScore_after_setItem (st st' : Storage) (n : Z) :
  setItem st "highScore" (toString n) = Normal st' ->
  items st' = <["highScore" := toString n]> (items st)
  /\ getHighScore st' = Int n.
Proof.
  unfold setItem. destruct (denied st) eqn:Hd; [discriminate|].
  destruct (full st); [discriminate|]. simpl. intros [= <-].
  split; [reflexivity|].
  rewrite getHighScore_lookup by reflexivity. simpl.
  rewrite lookup_insert_eq.
  rewrite bool_decide_eq_false_2 by apply toString_nonempty.
  apply parseInt_toString.
Qed.

(** C7: on the game-over screen, with a working storage that holds a
    high score [h] (0 when nothing is stored), the stored value is
    replaced exactly when the final score is strictly greater than [h],
    and then by the final score; a final score equal to [h] leaves the
    storage as it was. *)
Theorem gameOver_saves_strictly_higher_score (s : State) (shown : number)
    (st : Storage) (h : Z) :
  screen s = gameOver ->
  denied st = false -> full st = false ->
  getHighScore st = Int h -> 0 <= h ->
  ((gameOverEffect s shown st).2 <> st <-> h < score s)
  /\ (h < score s ->
      items (gameOverEffect s shown st).2
      = <["highScore" := toString (score s)]> (items st)
      /\ getHighScore (gameOverEffect s shown st).2 = Int (score s))
  /\ (score s = h ->
      (gameOverEffect s shown st).2 = st
      /\ getHighScore (gameOverEffect s shown st).2 = Int h).
Proof.
  intros Hscreen Hd Hf Hh Hpos.
  assert (Hkeep : score s <= h -> (gameOverEffect s shown st).2 = st).
  { intros Hle. unfold gameOverEffect.
    destruct (bool_decide (screen s = gameOver) && (0 <? score s));
      [|reflexivity].
    simpl. unfold saveHighScore. rewrite Hh. simpl.
    destruct (Z.ltb_spec h (score s)); [lia | reflexivity]. }
  assert (Hsave : h < score s ->
            items (gameOverEffect s shown st).2
            = <["highScore" := toString (score s)]> (items st)
            /\ getHighScore (gameOverEffect s shown st).2 = Int (score s)).
  { intros Hlt. unfold gameOverEffect.
    rewrite bool_decide_eq_true_2 by exact Hscreen.
    destruct (Z.ltb_spec 0 (score s)); [|lia]. simpl.
    unfold saveHighScore. rewrite Hh. simpl.
    destruct (Z.ltb_spec h (score s)); [|lia].
    destruct (setItem st "highScore" (toString (score s))) as [st'|] eqn:Hset.
    - by apply getHighScore_after_setItem.
    - unfold setItem in Hset. rewrite Hd, Hf in Hset. discriminate. }
  split; [|split].
  - split.
    + intros Hne. destruct (Z_lt_le_dec h (score s)); [assumption|].
      exfalso. apply Hne. by apply Hkeep.
    + intros Hlt Heq. destruct (Hsave Hlt) as (_ & Hnew).
      rewrite Heq, Hh in Hnew. injection Hnew as Hnew. lia.
  - exact Hsave.
  - intros Heq. rewrite Hkeep by lia. split; [reflexivity|]. by rewrite Hh.
Qed.

Lemma gameOver_saves_strictly_higher_score_witness :
  (getHighScore (storageWith "180") = Int 180
   /\ getHighScore (gameOverEffect finishedGame (Int 180) (storageWith "180")).2
      = Int 247)
  /\ (getHighScore (storageWith "247") = Int 247
      /\ (gameOverEffect finishedGame (Int 247) (storageWith "247")).2
         = storageWith "247").
Proof.
  split.
  - split; [reflexivity|].
    apply (gameOver_saves_strictly_higher_score finishedGame (Int 180)
             (storageWith "180") 180); reflexivity || (simpl; lia).
  - split; [reflexivity|].
    apply (gameOver_saves_strictly_higher_score finishedGame (Int 247)
             (storageWith "247") 247); reflexivity || (simpl; lia).
Defined.

(** A stored string that is not a number reads as [NaN], not as 0, and
    one that starts with a minus sign reads as a negative number. *)
Lemma getHighScore_corrupted :
  getHighScore (storageWith "abc") = NaN
  /\ ~ (exists n, 0 <= n /\ getHighScore (storageWith "abc") = Int n)
  /\ getHighScore (storageWith "-5") = Int (-5).
Proof.
  split; [reflexivity|]. split; [|reflexivity].
  intros (n & _ & Hn). discriminate Hn.
Qed.

(** C9, as the code has it: loading the high score gives 0 when storage
    access throws, when nothing is stored and when the empty string is
    stored; otherwise it gives [parseInt(stored, 10)], so that a score
    written by [saveHighScore] reads back as that score. *)
Theorem getHighScore_default_or_parseInt (st : Storage) (stored : string)
    (n : Z) :
  (denied st = true -> getHighScore st = Int 0)
  /\ (denied st = false -> items st !! "highScore" = None ->
      getHighScore st = Int 0)
  /\ (denied st = false -> items st !! "highScore" = Some "" ->
      getHighScore st = Int 0)
  /\ (denied st = false -> items st !! "highScore" = Some stored ->
      stored <> "" ->
      getHighScore st = parseInt stored)
  /\ (denied st = false -> items st !! "highScore" = Some (toString n) ->
      getHighScore st = Int n).
Proof.
  split; [|split; [|split; [|split]]].
  - intros Hd. unfold getHighScore, getItem. rewrite Hd. reflexivity.
  - intros Hd Hl. rewrite getHighScore_lookup, Hl by exact Hd. reflexivity.
  - intros Hd Hl. rewrite getHighScore_lookup, Hl by exact Hd. reflexivity.
  - intros Hd Hl Hne. rewrite getHighScore_lookup, Hl by exact Hd.
    by rewrite bool_decide_eq_false_2.
  - intros Hd Hl. rewrite getHighScore_lookup, Hl by exact Hd.
    rewrite bool_decide_eq_false_2 by apply toString_nonempty.
    apply parseInt_toString.
Qed.

Lemma getHighScore_default_or_parseInt_witness :
  getHighScore {| items := ∅; denied := true; full := false |} = Int 0
  /\ getHighScore emptyStorage = Int 0
  /\ getHighScore (storageWith "") = Int 0
  /\ getHighScore (storageWith "12abc") = parseInt "12abc"
  /\ getHighScore (storageWith (toString 67)) = Int 67.
Proof.
  pose proof (getHighScore_default_or_parseInt
                {| items := ∅; denied := true; full := false |} "" 0)
    as (Hdenied & _).
  pose proof (getHighScore_default_or_parseInt emptyStorage "" 0)
    as (_ & Habsent & _).
  pose proof (getHighScore_default_or_parseInt (storageWith "") "" 0)
    as (_ & _ & Hempty & _).
  pose proof (getHighScore_default_or_parseInt (storageWith "12abc")
                "12abc" 0) as (_ & _ & _ & Hparse & _).
  pose proof (getHighScore_default_or_parseInt (storageWith (toString 67))
                "" 67) as (_ & _ & _ & _ & Hback).
  split; [apply Hdenied; reflexivity|].
  split; [apply Habsent; reflexivity|].
  split; [apply Hempty; reflexivity|].
  split; [apply Hparse; [reflexivity | reflexivity | discriminate]|].
  apply Hback; reflexivity.
Defined.

(** * Further properties of the component *)

(** ** Points *)

Lemma finalPoints_range (qd : option Difficulty) (mode : Difficulty) (c : Z) :
  10 <= finalPoints qd mode c <= maxPoints.
Proof.
  unfold finalPoints, getComboMultiplier, maxPoints.
  destruct qd as [[]|], mode; combo_cases c;
    split; apply Z.leb_le; vm_compute; reflexivity.
Qed.

(** X1: a correct answer is worth at least 10 and at most 112 points,
    whatever the tag of the question, the mode and the combo; 10 is what
    an easy question gives in easy mode below a combo of 3, and 112 what a
    hard question gives in hard mode from a combo of 20 on. *)
Theorem finalPoints_between_10_and_112 (qd : option Difficulty)
    (mode : Difficulty) (c : Z) :
  10 <= finalPoints qd mode c <= 112
  /\ (c < 3 -> finalPoints (Some easy) easy c = 10
               /\ finalPoints None easy c = 10)
  /\ (20 <= c -> finalPoints (Some hard) hard c = 112).
Proof.
  split; [apply finalPoints_range|].
  unfold finalPoints, getComboMultiplier.
  split; intros Hc; combo_cases c; try lia;
    try split; vm_compute; reflexivity.
Qed.

Lemma finalPoints_between_10_and_112_witness :
  (finalPoints (Some easy) easy 1 = 10 /\ finalPoints None easy 1 = 10)
  /\ finalPoints (Some hard) hard 25 = 112.
Proof.
  pose proof (finalPoints_between_10_and_112 None easy 1) as (_ & Hlow & _).
  pose proof (finalPoints_between_10_and_112 None easy 25) as (_ & _ & Hhigh).
  split; [apply Hlow; lia | apply Hhigh; lia].
Defined.

(** X2: the award never decreases when the combo grows, when the mode is
    harder, or when the question carries a harder tag; a question without
    a tag is paid as an easy one. *)
Theorem finalPoints_monotone (qd : option Difficulty) (mode : Difficulty)
    (c1 c2 : Z) :
  (c1 <= c2 -> finalPoints qd mode c1 <= finalPoints qd mode c2)
  /\ finalPoints qd easy c1 <= finalPoints qd medium c1
  /\ finalPoints qd medium c1 <= finalPoints qd hard c1
  /\ finalPoints None mode c1 = finalPoints (Some easy) mode c1
  /\ finalPoints (Some easy) mode c1 <= finalPoints (Some medium) mode c1
  /\ finalPoints (Some medium) mode c1 <= finalPoints (Some hard) mode c1.
Proof.
  unfold finalPoints, getComboMultiplier.
  split; [|split; [|split; [|split; [|split]]]].
  - intros Hle.
    destruct qd as [[]|], mode; combo_cases c1; combo_cases c2; try lia;
      apply Z.leb_le; vm_compute; reflexivity.
  - destruct qd as [[]|]; combo_cases c1; apply Z.leb_le; vm_compute;
      reflexivity.
  - destruct qd as [[]|]; combo_cases c1; apply Z.leb_le; vm_compute;
      reflexivity.
  - reflexivity.
  - destruct mode; combo_cases c1; apply Z.leb_le; vm_compute; reflexivity.
  - destruct mode; combo_cases c1; apply Z.leb_le; vm_compute; reflexivity.
Qed.

Lemma finalPoints_monotone_witness :
  finalPoints (Some medium) medium 4 <= finalPoints (Some medium) medium 5.
Proof.
  pose proof (finalPoints_monotone (Some medium) medium 4 5) as (Hmono & _).
  apply Hmono. lia.
Defined.

(** ** Ranges of the counters *)

Lemma getTimeByDifficulty_range (mode : Difficulty) :
  2 <= getTimeByDifficulty mode <= 7.
Proof. destruct mode; simpl; lia. Qed.

Lemma Ranges_initialState : Ranges initialState.
Proof.
  unfold Ranges. simpl. repeat split; try lia; try reflexivity.
  all: intros Hq; destruct Hq as [q Hq]; discriminate Hq.
Qed.

Lemma timerEffect_Ranges (s : State) : Ranges s -> Ranges (timerEffect s).
Proof. intros H. unfold timerEffect. destruct (armed s); exact H. Qed.

Ltac ranges_open H :=
  destruct H as (Hh & Hh1 & Hsc & Hco & Hqn & Hrel & Hclean & Htl & Htm & Ht1);
  unfold maxPoints in *.

Ltac ranges_close :=
  unfold Ranges, maxPoints in *; simpl;
  repeat match goal with |- _ /\ _ => split end;
  intros; try discriminate; try lia; try reflexivity; auto.

Lemma setScreen_Ranges (sc : Screen) (s : State) :
  Ranges s -> Ranges (setScreen sc s).
Proof. intros H. exact H. Qed.

Lemma startGame_Ranges (bank : list CountryCapital.t) (r : Random)
    (mode : Difficulty) (s s1 : State) :
  startGame bank r mode s = Some s1 -> Ranges s1.
Proof.
  unfold startGame. destruct (generateQuestion _ _ _ _); [|discriminate].
  intros [= <-]. pose proof (getTimeByDifficulty_range mode).
  ranges_close.
Qed.

Lemma nextQuestion_Ranges (bank : list CountryCapital.t) (r : Random)
    (s s1 : State) :
  Ranges s -> nextQuestion bank r s = Some s1 -> Ranges s1.
Proof.
  intros HR. unfold nextQuestion.
  destruct (Z.leb_spec (hearts s) 0); [intros [= <-]; exact HR|].
  destruct (generateQuestion _ _ _ _); [|discriminate].
  intros [= <-]. ranges_open HR.
  pose proof (getTimeByDifficulty_range (currentDifficulty s)).
  destruct (isAnswered s); ranges_close.
Qed.

Lemma handleAnswer_Ranges (answer : string) (s : State) :
  Ranges s -> Ranges (handleAnswer answer s).
Proof.
  intros HR. destruct (handleAnswer_cases answer s) as [?|q Ha Hq ?|Ha ?];
    [exact HR | |]; ranges_open HR; rewrite Ha in Hrel;
    specialize (Hh1 Ha).
  - pose proof (finalPoints_range (Question.difficulty q)
                  (currentDifficulty s) (combo s + 1)).
    unfold maxPoints in *. ranges_close.
  - unfold maxPoints in *. ranges_close.
Qed.

Lemma tick_Ranges (s : State) :
  Ranges s -> is_Some (currentQuestion s) -> Ranges (tick s).
Proof.
  intros HR Hq. destruct (tick_cases s) as [?|Ha ? ?|Ha ? ?|Ha ? ?];
    [exact HR | | |]; ranges_open HR; rewrite Ha in Hrel;
    specialize (Hh1 Ha); specialize (Ht1 Ha Hq); specialize (Htm Hq);
    unfold maxPoints in *.
  - unfold Ranges, maxPoints. simpl. rewrite Ha.
    repeat match goal with |- _ /\ _ => split end;
      intros; try lia; auto.
  - ranges_close.
  - lia.
Qed.

Lemma handle_Ranges (bank : list CountryCapital.t) (ev : Event)
    (s s1 : State) :
  Inv s -> Ranges s -> handle bank ev s = Some s1 -> Ranges s1.
Proof.
  intros (Htimer & _) HR Hh. destruct ev; simpl in Hh.
  - eapply startGame_Ranges; eauto.
  - injection Hh as <-. by apply handleAnswer_Ranges.
  - injection Hh as <-. destruct (timerRef s) eqn:Ht; [|exact HR].
    destruct (Htimer eq_refl) as (Harmed & _).
    apply armed_true in Harmed as (_ & Hq & _). by apply tick_Ranges.
  - unfold fire in Hh. destruct (scheduled s !! k) as [[[] ?]|].
    + eapply nextQuestion_Ranges; [|exact Hh]. exact HR.
    + injection Hh as <-. exact HR.
    + injection Hh as <-. exact HR.
  - injection Hh as <-. unfold handleBack.
    repeat case_match; try rewrite clearTimer_eq; exact HR.
  - injection Hh as <-. exact HR.
  - injection Hh as <-. exact HR.
  - unfold renderGame in Hh.
    destruct (bool_decide (screen s = game)); [|injection Hh as <-; exact HR].
    destruct (currentQuestion s) eqn:Hq; [injection Hh as <-; exact HR|].
    destruct (generateQuestion _ _ _ _); [|discriminate].
    injection Hh as <-. ranges_open HR.
    pose proof (getTimeByDifficulty_range (currentDifficulty s)).
    unfold Ranges, maxPoints. simpl.
    repeat match goal with |- _ /\ _ => split end;
      intros; try lia; auto.
Qed.

Lemma reachable_Ranges (bank : list CountryCapital.t) (s : State) :
  reachable bank s -> Ranges s.
Proof.
  induction 1 as [|ev s s' Hr IH Hstep]; [apply Ranges_initialState|].
  unfold step in Hstep.
  destruct (handle bank ev s) as [s1|] eqn:Hh; [|discriminate].
  injection Hstep as <-. apply timerEffect_Ranges.
  eapply handle_Ranges; eauto. by eapply reachable_Inv.
Qed.



(** X4: in every reachable state the score and the combo are not
    negative and the question number is at least 1; the combo never
    exceeds the question number, and the score never exceeds 112 points
    per question asked. *)
Theorem score_and_combo_bounded_by_questions (bank : list CountryCapital.t)
    (s : State) :
  reachable bank s ->
  1 <= questionNumber s
  /\ 0 <= combo s <= questionNumber s
  /\ 0 <= score s <= 112 * questionNumber s.
Proof.
  intros Hr. pose proof (reachable_Ranges bank s Hr) as HR.
  ranges_open HR. destruct (isAnswered s); lia.
Qed.

Lemma score_and_combo_bounded_by_questions_witness :
  1 <= questionNumber answeredRound
  /\ 0 <= combo answeredRound <= questionNumber answeredRound
  /\ 0 <= score answeredRound <= 112 * questionNumber answeredRound.
Proof.
  apply (score_and_combo_bounded_by_questions sampleBank answeredRound
           answeredRound_reachable).
Defined.






(** ** What the game screen shows *)

Lemma reachable_unanswered_clean (bank : list CountryCapital.t) (s : State) :
  reachable bank s -> isAnswered s = false ->
  selectedAnswer s = None /\ correctAnswer s = None /\ feedback s = "".
Proof.
  intros Hr Ha. pose proof (reachable_Ranges bank s Hr) as HR.
  ranges_open HR. auto.
Qed.

Ltac decide_all := repeat case_bool_decide.

(** X7: how the option buttons are highlighted.  While the round is
    unanswered no button carries a class.  After a correct answer only
    the chosen button is marked correct.  After a wrong answer the chosen
    button is marked wrong and the button of the correct capital is
    marked correct; after a timeout only the correct capital is marked.
    (A fact whose capital is the empty string is recorded as [null], and
    then a wrong answer marks no button as correct.) *)
Theorem answer_buttons_highlight (bank : list CountryCapital.t) (s : State)
    (q : Question.t) (answer opt : string) :
  reachable bank s ->
  currentQuestion s = Some q ->
  isAnswered s = false ->
  answerButtonClass q s opt = ""
  /\ (answer = Question.capital q ->
      answerButtonClass q (handleAnswer answer s) opt
      = if bool_decide (opt = Question.capital q) then "correct-answer"
        else "")
  /\ (answer <> Question.capital q -> Question.capital q <> "" ->
      answerButtonClass q (handleAnswer answer s) opt
      = if bool_decide (opt = Question.capital q) then "correct-answer"
        else if bool_decide (opt = answer) then "wrong-answer"
        else "")
  /\ (answer <> Question.capital q -> Question.capital q = "" ->
      answerButtonClass q (handleAnswer answer s) opt
      = if bool_decide (opt = answer) then "wrong-answer" else "")
  /\ (timeoutHandledRef s = false -> timeLeft s = 1 ->
      answerButtonClass q (tick s) opt
      = if bool_decide (opt = Question.capital q) then "correct-answer"
        else "").
Proof.
  intros Hr Hq Ha.
  destruct (reachable_unanswered_clean bank s Hr Ha) as (Hsel & Hcor & _).
  split; [|split; [|split; [|split]]].
  - unfold answerButtonClass. rewrite Ha, Hsel. simpl.
    destruct (bool_decide (opt = Question.capital q)); reflexivity.
  - intros Hans. rewrite (handleAnswer_correct answer s q Ha Hq Hans).
    unfold answerButtonClass. simpl. rewrite Hcor. subst answer.
    decide_all; simpl; congruence.
  - intros Hne Hcap.
    rewrite (handleAnswer_wrong answer s Ha)
      by (rewrite Hq; simpl; congruence).
    unfold answerButtonClass, capitalOrNull. simpl. rewrite Hq.
    decide_all; simpl; congruence.
  - intros Hne Hcap.
    rewrite (handleAnswer_wrong answer s Ha)
      by (rewrite Hq; simpl; congruence).
    unfold answerButtonClass, capitalOrNull. simpl. rewrite Hq.
    decide_all; simpl; congruence.
  - intros Hl Ht. rewrite (tick_timeout s Ha Hl) by lia.
    unfold answerButtonClass. simpl. rewrite Hq, Hsel. simpl.
    decide_all; simpl; congruence.
Qed.

Lemma run_reachable (bank : list CountryCapital.t) (evs : list Event) :
  forall s s', reachable bank s -> run bank evs s = Some s' ->
               reachable bank s'.
Proof.
  induction evs as [|ev evs IH]; intros s s' Hr Hrun; simpl in Hrun.
  - by injection Hrun as <-.
  - destruct (step bank ev s) as [s1|] eqn:Hstep; [|discriminate].
    eapply IH; [|exact Hrun]. eapply reachable_step; eauto.
Qed.

Lemma lastSecondRound_reachable : reachable sampleBank lastSecondRound.
Proof.
  apply (run_reachable sampleBank (replicate 6 EvTick) startedRound);
    [apply startedRound_reachable | vm_compute; reflexivity].
Defined.

Lemma startedRound_question : currentQuestion startedRound = Some tokyoQuestion.
Proof. vm_compute. reflexivity. Defined.

Lemma lastSecondRound_question :
  currentQuestion lastSecondRound = Some tokyoQuestion.
Proof. vm_compute. reflexivity. Defined.

Lemma answer_buttons_highlight_witness :
  (answerButtonClass tokyoQuestion startedRound "Tokyo" = ""
   /\ answerButtonClass tokyoQuestion (handleAnswer "Tokyo" startedRound)
        "Tokyo" = "correct-answer"
   /\ answerButtonClass tokyoQuestion (handleAnswer "Nairobi" startedRound)
        "Tokyo" = "correct-answer")
  /\ answerButtonClass tokyoQuestion (handleAnswer "Nairobi" startedRound)
       "Nairobi" = "wrong-answer"
  /\ answerButtonClass tokyoQuestion (tick lastSecondRound) "Tokyo"
     = "correct-answer".
Proof.
  pose proof (answer_buttons_highlight sampleBank startedRound tokyoQuestion
                "Tokyo" "Tokyo" startedRound_reachable startedRound_question
                eq_refl) as (Hnone & Hright & _).
  pose proof (answer_buttons_highlight sampleBank startedRound tokyoQuestion
                "Nairobi" "Tokyo" startedRound_reachable
                startedRound_question eq_refl) as (_ & _ & Hwrong1 & _).
  pose proof (answer_buttons_highlight sampleBank startedRound tokyoQuestion
                "Nairobi" "Nairobi" startedRound_reachable
                startedRound_question eq_refl) as (_ & _ & Hwrong2 & _).
  pose proof (answer_buttons_highlight sampleBank lastSecondRound
                tokyoQuestion "Tokyo" "Tokyo" lastSecondRound_reachable
                lastSecondRound_question eq_refl) as (_ & _ & _ & _ & Hlate).
  split; [split; [exact Hnone | split]|split].
  - rewrite Hright by reflexivity. reflexivity.
  - rewrite Hwrong1 by discriminate. reflexivity.
  - rewrite Hwrong2 by discriminate. reflexivity.
  - rewrite Hlate by (vm_compute; reflexivity). reflexivity.
Defined.






(** X10: the feedback banner.  An unanswered round shows none; after a
    correct answer it is styled [correct], and after a wrong answer or a
    timeout it is styled [incorrect] (the style is chosen by searching the
    text of the message). *)
Theorem feedbackMessage_styles (bank : list CountryCapital.t) (s : State)
    (q : Question.t) (answer : string) :
  reachable bank s ->
  currentQuestion s = Some q ->
  isAnswered s = false ->
  feedbackMessage s = None
  /\ (answer = Question.capital q ->
      feedbackMessage (handleAnswer answer s)
      = Some ("correct", "정답입니다!"))
  /\ (answer <> Question.capital q ->
      feedbackMessage (handleAnswer answer s)
      = Some ("incorrect", "틀렸습니다!"))
  /\ (timeoutHandledRef s = false -> timeLeft s = 1 ->
      feedbackMessage (tick s) = Some ("incorrect", "시간 초과입니다!")).
Proof.
  intros Hr Hq Ha.
  destruct (reachable_unanswered_clean bank s Hr Ha) as (_ & _ & Hfb).
  split; [|split; [|split]].
  - unfold feedbackMessage. rewrite Hfb. reflexivity.
  - intros Hans. rewrite (handleAnswer_correct answer s q Ha Hq Hans).
    vm_compute. reflexivity.
  - intros Hne.
    rewrite (handleAnswer_wrong answer s Ha)
      by (rewrite Hq; simpl; congruence).
    vm_compute. reflexivity.
  - intros Hl Ht. rewrite (tick_timeout s Ha Hl) by lia.
    vm_compute. reflexivity.
Qed.

Lemma feedbackMessage_styles_witness :
  feedbackMessage startedRound = None
  /\ feedbackMessage (handleAnswer "Tokyo" startedRound)
     = Some ("correct", "정답입니다!")
  /\ feedbackMessage (handleAnswer "Nairobi" startedRound)
     = Some ("incorrect", "틀렸습니다!")
  /\ feedbackMessage (tick lastSecondRound)
     = Some ("incorrect", "시간 초과입니다!").
Proof.
  pose proof (feedbackMessage_styles sampleBank startedRound tokyoQuestion
                "Tokyo" startedRound_reachable startedRound_question
                eq_refl) as (Hnone & Hright & _).
  pose proof (feedbackMessage_styles sampleBank startedRound tokyoQuestion
                "Nairobi" startedRound_reachable startedRound_question
                eq_refl) as (_ & _ & Hwrong & _).
  pose proof (feedbackMessage_styles sampleBank lastSecondRound tokyoQuestion
                "Tokyo" lastSecondRound_reachable lastSecondRound_question
                eq_refl) as (_ & _ & _ & Hlate).
  split; [exact Hnone|]. split; [apply Hright; reflexivity|].
  split; [apply Hwrong; discriminate|].
  apply Hlate; vm_compute; reflexivity.
Defined.

(** ** The high-score store, continued *)

Lemma saveHighScore_cases (score : Z) (st : Storage) :
  (saveHighScore score st = st
   /\ (getHighScore st = NaN
       \/ (exists h, getHighScore st = Int h /\ score <= h)
       \/ denied st = true \/ full st = true))
  \/ (exists h,
        getHighScore st = Int h /\ h < score
        /\ denied st = false /\ full st = false
        /\ saveHighScore score st
           = {| items := <["highScore" := toString score]> (items st);
                denied := false; full := false |}).
Proof.
  unfold saveHighScore.
  destruct (getHighScore st) as [h|] eqn:Hh; simpl; [|left; auto].
  destruct (Z.ltb_spec h score); [|left; split; [reflexivity|]; eauto].
  unfold setItem. destruct (denied st) eqn:Hd; simpl; [left; auto|].
  destruct (full st) eqn:Hf; simpl; [left; auto 6|].
  right. exists h. auto.
Qed.

Lemma getHighScore_stored (m : gmap string string) (n : Z) :
  getHighScore {| items := <["highScore" := toString n]> m;
                  denied := false; full := false |} = Int n.
Proof.
  rewrite getHighScore_lookup by reflexivity. simpl.
  rewrite lookup_insert_eq.
  rewrite bool_decide_eq_false_2 by apply toString_nonempty.
  apply parseInt_toString.
Qed.

(** X11: the new-record badge of the game-over screen.  With a working
    storage that holds the high score [h], the badge is shown exactly when
    the final score is positive and at least [h]: a final score equal to
    the stored high score is announced as a new record too. *)
Theorem newRecordBadge_shown_iff (s : State) (shown : number) (st : Storage)
    (h : Z) :
  screen s = gameOver ->
  denied st = false -> full st = false ->
  getHighScore st = Int h -> 0 <= h ->
  (newRecordBadge (score s) (gameOverEffect s shown st).1 = true
   <-> 0 < score s /\ h <= score s).
Proof.
  intros Hscreen Hd Hf Hh Hpos. unfold gameOverEffect.
  rewrite bool_decide_eq_true_2 by exact Hscreen. simpl.
  destruct (Z.ltb_spec 0 (score s)) as [Hs|Hs]; simpl.
  - destruct (saveHighScore_cases (score s) st)
      as [(-> & Hwhy)|(h' & Hh' & Hlt & _ & _ & ->)].
    + rewrite Hh. simpl.
      destruct Hwhy as [?|[(h' & Hh' & Hle)|[?|?]]]; try congruence.
      assert (h' = h) by congruence. subst h'.
      rewrite andb_true_iff, Z.eqb_eq, Z.ltb_lt. lia.
    + rewrite getHighScore_stored. simpl.
      assert (h' = h) by congruence. subst h'.
      rewrite andb_true_iff, Z.eqb_eq, Z.ltb_lt. lia.
  - unfold newRecordBadge. destruct shown as [h'|]; [|split; [discriminate|lia]].
    rewrite andb_true_iff, Z.eqb_eq, Z.ltb_lt. lia.
Qed.

Lemma newRecordBadge_shown_iff_witness :
  newRecordBadge (score finishedGame)
    (gameOverEffect finishedGame (Int 247) (storageWith "247")).1 = true
  /\ newRecordBadge (score finishedGame)
       (gameOverEffect finishedGame (Int 300) (storageWith "300")).1 = false.
Proof.
  split.
  - apply (newRecordBadge_shown_iff finishedGame (Int 247)
             (storageWith "247") 247); try reflexivity; simpl; lia.
  - apply not_true_is_false. intros Hshown.
    apply (newRecordBadge_shown_iff finishedGame (Int 300)
             (storageWith "300") 300) in Hshown; try reflexivity;
      simpl in *; lia.
Defined.

Lemma saveHighScore_usable (score : Z) (st : Storage) (h : Z) :
  denied st = false -> full st = false -> getHighScore st = Int h ->
  denied (saveHighScore score st) = false
  /\ full (saveHighScore score st) = false
  /\ getHighScore (saveHighScore score st) = Int (Z.max h score).
Proof.
  intros Hd Hf Hh.
  destruct (saveHighScore_cases score st)
    as [(-> & Hwhy)|(h' & Hh' & Hlt & _ & _ & ->)].
  - destruct Hwhy as [?|[(h' & Hh' & Hle)|[?|?]]]; try congruence.
    assert (h' = h) by congruence. subst h'.
    rewrite Hh. repeat split; try assumption. f_equal. lia.
  - assert (h' = h) by congruence. subst h'.
    rewrite getHighScore_stored. repeat split. f_equal. lia.
Qed.

(** X12: with a working storage, saving the final scores of any number
    of games one after the other leaves the largest of them (or the value
    stored before, if that is larger) as the high score. *)
Theorem saved_high_score_is_the_maximum (scores : list Z) (st : Storage)
    (h : Z) :
  denied st = false -> full st = false -> getHighScore st = Int h ->
  getHighScore (foldl (fun st score => saveHighScore score st) st scores)
  = Int (foldl Z.max h scores).
Proof.
  revert st h. induction scores as [|score scores IH]; intros st h Hd Hf Hh.
  - exact Hh.
  - simpl. destruct (saveHighScore_usable score st h Hd Hf Hh)
      as (Hd' & Hf' & Hh').
    by apply IH.
Qed.

Lemma saved_high_score_is_the_maximum_witness :
  getHighScore
    (foldl (fun st score => saveHighScore score st) emptyStorage
           [120; 247; 60; 247; 0])
  = Int 247.
Proof.
  apply (saved_high_score_is_the_maximum [120; 247; 60; 247; 0]
           emptyStorage 0); reflexivity.
Defined.

(** X13: [saveHighScore] writes at most the key [highScore]: every other
    key of the storage and its availability are left as they were; and
    saving the same score twice is the same as saving it once. *)
Theorem saveHighScore_touches_only_its_key (score : Z) (st : Storage)
    (key : string) :
  (key <> "highScore" ->
   items (saveHighScore score st) !! key = items st !! key)
  /\ denied (saveHighScore score st) = denied st
  /\ full (saveHighScore score st) = full st
  /\ saveHighScore score (saveHighScore score st) = saveHighScore score st.
Proof.
  destruct (saveHighScore_cases score st)
    as [(Heq & _)|(h & Hh & Hlt & Hd & Hf & Heq)].
  - rewrite !Heq. repeat split.
  - rewrite !Heq. simpl. split; [|split; [|split]]; try congruence.
    + intros Hne. by rewrite lookup_insert_ne.
    + unfold saveHighScore at 1. rewrite getHighScore_stored. simpl.
      by rewrite Z.ltb_irrefl.
Qed.

Lemma saveHighScore_touches_only_its_key_witness :
  items (saveHighScore 247
           {| items := {[ "theme" := "dark" ]}; denied := false;
              full := false |}) !! "theme" = Some "dark".
Proof.
  destruct (saveHighScore_touches_only_its_key 247
              {| items := {[ "theme" := "dark" ]}; denied := false;
                 full := false |} "theme") as (Hother & _).
  rewrite Hother by discriminate. reflexivity.
Defined.

(** X14: storage failures are swallowed.  When every access throws, the
    high score loads as 0 and saving changes nothing; when only writing
    throws, saving changes nothing and the value stored before is still
    what loads; in both cases the game-over effect leaves the storage as
    it was. *)
Theorem storage_failures_are_swallowed (s : State) (shown : number)
    (n : Z) (st : Storage) :
  (denied st = true ->
   getHighScore st = Int 0 /\ saveHighScore n st = st)
  /\ (full st = true ->
      saveHighScore n st = st
      /\ getHighScore (saveHighScore n st) = getHighScore st)
  /\ (denied st = true \/ full st = true ->
      (gameOverEffect s shown st).2 = st).
Proof.
  assert (Hfail : denied st = true \/ full st = true ->
                  saveHighScore n st = st).
  { intros Hbad.
    destruct (saveHighScore_cases n st)
      as [(Heq & _)|(h & _ & _ & Hd & Hf & _)]; [exact Heq|].
    destruct Hbad; congruence. }
  split; [|split].
  - intros Hd. split; [|auto].
    unfold getHighScore, getItem. by rewrite Hd.
  - intros Hf. rewrite Hfail by auto. auto.
  - intros Hbad. unfold gameOverEffect.
    destruct (bool_decide (screen s = gameOver) && (0 <? score s));
      [|reflexivity].
    simpl. destruct (saveHighScore_cases (score s) st)
      as [(Heq & _)|(h & _ & _ & Hd & Hf & _)]; [exact Heq|].
    destruct Hbad; congruence.
Qed.

Lemma storage_failures_are_swallowed_witness :
  (getHighScore {| items := ∅; denied := true; full := false |} = Int 0
   /\ saveHighScore 247 {| items := ∅; denied := true; full := false |}
      = {| items := ∅; denied := true; full := false |})
  /\ saveHighScore 247
       {| items := {[ "highScore" := "180" ]}; denied := false; full := true |}
     = {| items := {[ "highScore" := "180" ]}; denied := false; full := true |}.
Proof.
  pose proof (storage_failures_are_swallowed finishedGame NaN 247
                {| items := ∅; denied := true; full := false |})
    as (Hdenied & _).
  pose proof (storage_failures_are_swallowed finishedGame NaN 247
                {| items := {[ "highScore" := "180" ]}; denied := false;
                   full := true |}) as (_ & Hfull & _).
  split; [apply Hdenied; reflexivity|].
  apply Hfull. reflexivity.
Defined.

(** X15: a stored value that does not parse is never repaired: as long
    as the key holds a string that reads as [NaN], no score is ever
    written over it, whatever scores are saved and however many. *)
Theorem corrupted_high_score_is_never_replaced (scores : list Z)
    (st : Storage) :
  getHighScore st = NaN ->
  foldl (fun st score => saveHighScore score st) st scores = st.
Proof.
  intros Hnan. induction scores as [|score scores IH]; [reflexivity|].
  simpl. assert (Hsame : saveHighScore score st = st).
  { unfold saveHighScore. by rewrite Hnan. }
  rewrite Hsame. exact IH.
Qed.

Lemma corrupted_high_score_is_never_replaced_witness :
  foldl (fun st score => saveHighScore score st) (storageWith "abc")
        [10; 247; 9000]
  = storageWith "abc".
Proof.
  apply (corrupted_high_score_is_never_replaced [10; 247; 9000]
           (storageWith "abc")).
  reflexivity.
Defined.

(** ** The question generator, for any bank *)

(** X16: [generateQuestion] throws exactly when the list of eligible
    facts is empty; in hard mode that is when the bank is empty, and in
    the first twenty questions of easy mode when no fact is tagged
    easy. *)
Theorem generateQuestion_throws_iff_no_eligible_fact
    (bank : list CountryCapital.t) (r : Random) (mode : Difficulty) (n : Z) :
  (generateQuestion bank r mode n = None
   <-> availableCountries bank mode n = [])
  /\ (generateQuestion bank r hard n = None <-> bank = [])
  /\ (n <= 20 ->
      (generateQuestion bank r easy n = None
       <-> forall c, c ∈ bank -> CountryCapital.difficulty c <> Some easy)).
Proof.
  assert (Hiff : forall mode,
            generateQuestion bank r mode n = None
            <-> availableCountries bank mode n = []).
  { intros m. split.
    - intros Hnone.
      destruct (availableCountries bank m n) as [|c l] eqn:Hav; [reflexivity|].
      destruct (generateQuestion_Some bank r m n) as (? & _ & Hsome);
        [by rewrite Hav | congruence].
    - intros Hnil. unfold generateQuestion. by rewrite Hnil. }
  split; [apply Hiff|]. split; [apply Hiff|].
  intros Hn. rewrite Hiff. unfold availableCountries.
  destruct (Z.leb_spec n 20); [|lia]. split.
  - intros Hnil c Hc He.
    assert (Hin : c ∈ filter (fun c => CountryCapital.difficulty c = Some easy)
                             bank) by (by apply list_elem_of_filter).
    rewrite Hnil in Hin. by apply elem_of_nil in Hin.
  - intros Hall.
    destruct (filter _ bank) as [|c l] eqn:Hf; [reflexivity|].
    assert (Hin : c ∈ filter (fun c => CountryCapital.difficulty c = Some easy)
                             bank) by (rewrite Hf; left).
    apply list_elem_of_filter in Hin as (He & Hc). by destruct (Hall c Hc).
Qed.

Lemma generateQuestion_throws_iff_no_eligible_fact_witness :
  generateQuestion [] sampleRandom hard 5 = None
  /\ generateQuestion
       [CountryCapital.mk "Bhutan" "Thimphu" (Some hard);
        CountryCapital.mk "Palau" "Ngerulmud" None] sampleRandom easy 1
     = None.
Proof.
  pose proof (generateQuestion_throws_iff_no_eligible_fact [] sampleRandom
                hard 5) as (_ & Hhard & _).
  pose proof (generateQuestion_throws_iff_no_eligible_fact
                [CountryCapital.mk "Bhutan" "Thimphu" (Some hard);
                 CountryCapital.mk "Palau" "Ngerulmud" None]
                sampleRandom easy 1) as (_ & _ & Heasy).
  split; [apply Hhard; reflexivity|].
  apply Heasy; [lia|].
  intros c Hc. apply elem_of_cons in Hc as [->|Hc]; [discriminate|].
  apply elem_of_cons in Hc as [->|Hc]; [discriminate|].
  by apply elem_of_nil in Hc.
Defined.

(** X17: whatever the bank holds, a question that is returned is built
    from one of its facts and always carries a tag; the correct capital
    occurs exactly once among the options; every option is the capital of
    some fact; and there are four options, or fewer when the bank has
    fewer than three facts with another capital. *)
Theorem generateQuestion_on_any_bank (bank : list CountryCapital.t)
    (r : Random) (mode : Difficulty) (n : Z) (q : Question.t) :
  generateQuestion bank r mode n = Some q ->
  (exists c,
     c ∈ bank
     /\ Question.country q = CountryCapital.country c
     /\ Question.capital q = CountryCapital.capital c
     /\ Question.difficulty q
        = Some (default easy (CountryCapital.difficulty c)))
  /\ length (filter (fun o => o = Question.capital q) (Question.options q))
     = 1%nat
  /\ length (Question.options q)
     = (4 `min` S (length (filter (fun item => CountryCapital.capital item
                                                <> Question.capital q)
                                  bank)))%nat
  /\ (forall o, o ∈ Question.options q ->
                exists c, c ∈ bank /\ CountryCapital.capital c = o).
Proof.
  intros Hq.
  destruct (generateQuestion_inv bank r mode n q Hq) as (c & Hc & ->).
  apply availableCountries_sub in Hc.
  cbn [Question.country Question.capital Question.options
       Question.difficulty].
  set (sorted := distractor_sort r (others bank c)).
  assert (Hperm : sorted ≡ₚ others bank c) by apply shuffle_perm.
  assert (Hopts : option_sort r (CountryCapital.capital c :: take 3 sorted)
                  ≡ₚ CountryCapital.capital c :: take 3 sorted)
    by apply shuffle_perm.
  assert (Hfresh : CountryCapital.capital c ∉ take 3 sorted).
  { intros Hin. apply (others_not_elem bank c). rewrite <- Hperm.
    eapply elem_of_sublist; [exact Hin | apply sublist_take]. }
  split; [exists c; auto|]. split; [|split].
  - rewrite Hopts. rewrite filter_cons_True by reflexivity. simpl. f_equal.
    destruct (filter _ (take 3 sorted)) as [|o l] eqn:Hf; [reflexivity|].
    assert (Hin : o ∈ filter (fun o => o = CountryCapital.capital c)
                             (take 3 sorted)) by (rewrite Hf; left).
    apply list_elem_of_filter in Hin as (-> & Hin). contradiction.
  - rewrite Hopts. cbn [length]. rewrite length_take, Hperm.
    unfold others. rewrite length_fmap. lia.
  - intros o Ho. rewrite Hopts in Ho.
    apply elem_of_cons in Ho as [->|Ho]; [eauto|].
    assert (Hin : o ∈ others bank c).
    { rewrite <- Hperm. eapply elem_of_sublist; [exact Ho | apply sublist_take]. }
    unfold others in Hin.
    apply list_elem_of_fmap in Hin as (item & -> & Hitem).
    apply list_elem_of_filter in Hitem as (_ & Hitem). eauto.
Qed.

Lemma generateQuestion_on_any_bank_witness :
  generateQuestion sharedCapitalBank firstRandom easy 1 = Some sharedQuestion
  /\ length (filter (fun o => o = Question.capital sharedQuestion)
                    (Question.options sharedQuestion)) = 1%nat
  /\ length (Question.options sharedQuestion) = 4%nat.
Proof.
  assert (Hq : generateQuestion sharedCapitalBank firstRandom easy 1
               = Some sharedQuestion) by (vm_compute; reflexivity).
  destruct (generateQuestion_on_any_bank sharedCapitalBank firstRandom easy 1
              sharedQuestion Hq) as (_ & Honce & Hlen & _).
  split; [exact Hq|]. split; [exact Honce|].
  rewrite Hlen. vm_compute. reflexivity.
Defined.

Lemma filter_sublist_weaken {A} (P Q : A -> Prop)
    `{!forall a, Decision (P a)} `{!forall a, Decision (Q a)} (l : list A) :
  (forall a, P a -> Q a) -> filter P l `sublist_of` filter Q l.
Proof.
  intros Himp. induction l as [|a l IH]; [constructor|].
  destruct (decide (P a)) as [Hp|Hn].
  - rewrite (filter_cons_True P) by exact Hp.
    rewrite (filter_cons_True Q) by auto. by constructor.
  - rewrite (filter_cons_False P) by exact Hn.
    destruct (decide (Q a)).
    + rewrite (filter_cons_True Q) by assumption. by constructor.
    + by rewrite (filter_cons_False Q).
Qed.

(** X18: the ramp only ever adds facts.  For a fixed mode a later
    question draws from a list that contains, in order, every fact an
    earlier question could draw from; and at the same question a harder
    mode draws from a list that contains the list of an easier mode. *)
Theorem availableCountries_grows (bank : list CountryCapital.t)
    (mode : Difficulty) (n m : Z) :
  (n <= m ->
   availableCountries bank mode n `sublist_of` availableCountries bank mode m)
  /\ availableCountries bank easy n `sublist_of`
       availableCountries bank medium n
  /\ availableCountries bank medium n `sublist_of`
       availableCountries bank hard n
  /\ availableCountries bank mode n `sublist_of` bank.
Proof.
  assert (Hem : filter (fun c => CountryCapital.difficulty c = Some easy) bank
                `sublist_of`
                filter (fun c => CountryCapital.difficulty c = Some easy
                                 \/ CountryCapital.difficulty c = Some medium)
                       bank)
    by (apply filter_sublist_weaken; auto).
  unfold availableCountries. split; [|split; [|split]].
  - intros Hle.
    destruct mode; repeat case_match; try lia;
      first [reflexivity | exact Hem | apply sublist_filter
            | etrans; [exact Hem | apply sublist_filter]].
  - repeat case_match; try lia;
      first [reflexivity | exact Hem | apply sublist_filter
            | etrans; [exact Hem | apply sublist_filter]].
  - repeat case_match; first [reflexivity | apply sublist_filter].
  - destruct mode; repeat case_match; first [reflexivity | apply sublist_filter].
Qed.

Lemma availableCountries_grows_witness :
  availableCountries sampleBank easy 20 `sublist_of`
    availableCountries sampleBank easy 21.
Proof.
  pose proof (availableCountries_grows sampleBank easy 20 21) as (Hgrow & _).
  apply Hgrow. lia.
Defined.

(** ** Rounds from start to finish *)

Lemma run_app (bank : list CountryCapital.t) (evs1 evs2 : list Event)
    (s : State) :
  run bank (evs1 ++ evs2) s = run bank evs1 s ≫= run bank evs2.
Proof.
  revert s. induction evs1 as [|ev evs1 IH]; intros s; [reflexivity|].
  simpl. destruct (step bank ev s); [apply IH | reflexivity].
Qed.

Lemma timerEffect_running (s : State) :
  armed s = true -> timerRef s = true -> timeoutHandledRef s = false ->
  timerEffect s = s.
Proof.
  intros Harmed Ht Hl. unfold timerEffect. rewrite Harmed.
  destruct s; simpl in *; subst; reflexivity.
Qed.

Lemma timerEffect_answered (s : State) :
  isAnswered s = true -> timerRef s = false -> timerEffect s = s.
Proof.
  intros Ha Ht. unfold timerEffect.
  assert (Harmed : armed s = false).
  { unfold armed. rewrite Ha. by rewrite andb_false_r. }
  rewrite Harmed. destruct s; simpl in *; subst; reflexivity.
Qed.

(** The state a timeout leaves behind. *)
Lemma step_tick_timeout (bank : list CountryCapital.t) (s : State) :
  timerRef s = true -> isAnswered s = false -> timeoutHandledRef s = false ->
  timeLeft s = 1 ->
  step bank EvTick s =
  Some (mkState (screen s) (speedMode s) (score s) (hearts s - 1)
          (questionNumber s) 0 0 (currentDifficulty s) (currentQuestion s)
          (selectedAnswer s) true "시간 초과입니다!"
          (Question.capital <$> currentQuestion s) false true
          (scheduled s ++ [afterMiss s])).
Proof.
  intros Ht Ha Hl Hone. unfold step. simpl. rewrite Ht.
  rewrite tick_timeout by (assumption || lia). simpl.
  f_equal. by apply timerEffect_answered.
Qed.

Lemma step_tick_countdown (bank : list CountryCapital.t) (s : State) :
  armed s = true -> timerRef s = true -> timeoutHandledRef s = false ->
  1 < timeLeft s ->
  step bank EvTick s = Some (setTimeLeft (timeLeft s - 1) s).
Proof.
  intros Harmed Ht Hl Hmany. unfold step. simpl. rewrite Ht.
  apply armed_true in Harmed as Hparts. destruct Hparts as (_ & _ & Ha).
  rewrite tick_countdown by assumption. simpl. f_equal.
  by apply timerEffect_running.
Qed.

Lemma ticks_count_down (bank : list CountryCapital.t) (k : nat) :
  forall s,
    armed s = true -> timerRef s = true -> timeoutHandledRef s = false ->
    Z.of_nat k < timeLeft s ->
    run bank (replicate k EvTick) s
    = Some (setTimeLeft (timeLeft s - Z.of_nat k) s).
Proof.
  induction k as [|k IH]; intros s Harmed Ht Hl Hk.
  - simpl. f_equal. destruct s; unfold setTimeLeft; simpl; f_equal; lia.
  - cbn [replicate run].
    rewrite step_tick_countdown by (assumption || lia).
    rewrite IH; try assumption; [|simpl; lia].
    f_equal. simpl. unfold setTimeLeft. simpl. f_equal. lia.
Qed.

Lemma ticks_after_resolution (bank : list CountryCapital.t) (k : nat)
    (s : State) :
  isAnswered s = true -> timerRef s = false ->
  run bank (replicate k EvTick) s = Some s.
Proof.
  intros Ha Ht. induction k as [|k IH]; [reflexivity|].
  cbn [replicate run]. unfold step. simpl. rewrite Ht. simpl.
  by rewrite timerEffect_answered.
Qed.

(** X19: the countdown.  From a reachable state in which the interval
    runs with [t] seconds on the clock, [k < t] ticks only lower the clock
    to [t - k]; the tick number [t] is the timeout, which takes a heart,
    clears the combo, records the correct capital and schedules one
    callback; and any further ticks change nothing. *)
Theorem countdown_times_out_on_the_last_second (bank : list CountryCapital.t)
    (s : State) (k : nat) :
  reachable bank s ->
  timerRef s = true ->
  let timedOut :=
    {| screen := screen s; speedMode := speedMode s; score := score s;
       hearts := hearts s - 1; questionNumber := questionNumber s;
       combo := 0; timeLeft := 0; currentDifficulty := currentDifficulty s;
       currentQuestion := currentQuestion s;
       selectedAnswer := selectedAnswer s; isAnswered := true;
       feedback := "시간 초과입니다!";
       correctAnswer := Question.capital <$> currentQuestion s;
       timerRef := false; timeoutHandledRef := true;
       scheduled := scheduled s ++ [afterMiss s] |} in
  (Z.of_nat k < timeLeft s ->
   run bank (replicate k EvTick) s
   = Some (setTimeLeft (timeLeft s - Z.of_nat k) s))
  /\ (timeLeft s <= Z.of_nat k ->
      run bank (replicate k EvTick) s = Some timedOut).
Proof.
  intros Hr Ht timedOut.
  destruct (reachable_Inv bank s Hr) as (Htimer & _).
  destruct (Htimer Ht) as (Harmed & Hl).
  pose proof (reachable_Ranges bank s Hr) as HR. ranges_open HR.
  apply armed_true in Harmed as Hparts. destruct Hparts as (_ & Hq & Ha).
  specialize (Ht1 Ha Hq).
  split; [by apply ticks_count_down|].
  intros Hk.
  replace k with (Z.to_nat (timeLeft s - 1) + (1 + (k - Z.to_nat (timeLeft s)))
                 )%nat by lia.
  rewrite replicate_add, run_app.
  rewrite ticks_count_down by (assumption || lia). cbn [mbind option_bind].
  rewrite Z2Nat.id by lia.
  cbn [Nat.add replicate run].
  rewrite step_tick_timeout by (simpl; assumption || lia).
  rewrite ticks_after_resolution by reflexivity.
  reflexivity.
Qed.

Lemma countdown_times_out_on_the_last_second_witness :
  timeLeft <$> run sampleBank (replicate 3 EvTick) startedRound = Some 4
  /\ (fun s => (hearts s, combo s, timeLeft s, isAnswered s))
       <$> run sampleBank (replicate 9 EvTick) startedRound
     = Some (2, 0, 0, true).
Proof.
  pose proof (countdown_times_out_on_the_last_second sampleBank startedRound
                3 startedRound_reachable eq_refl) as (Hbefore & _).
  pose proof (countdown_times_out_on_the_last_second sampleBank startedRound
                9 startedRound_reachable eq_refl) as (_ & Hafter).
  cbv zeta in Hbefore, Hafter. split.
  - rewrite Hbefore by (vm_compute; reflexivity). vm_compute. reflexivity.
  - rewrite Hafter by (vm_compute; discriminate). vm_compute. reflexivity.
Defined.

Lemma nextQuestion_Some (bank : list CountryCapital.t) (r : Random)
    (s : State) (q : Question.t) :
  0 < hearts s ->
  generateQuestion bank r (currentDifficulty s) (questionNumber s + 1)
  = Some q ->
  nextQuestion bank r s =
  Some (mkState (screen s) (speedMode s) (score s) (hearts s)
          (questionNumber s + 1) (combo s)
          (getTimeByDifficulty (currentDifficulty s)) (currentDifficulty s)
          (Some q) None false "" None (timerRef s) (timeoutHandledRef s)
          (scheduled s)).
Proof.
  intros Hh Hq. unfold nextQuestion.
  destruct (Z.leb_spec (hearts s) 0); [lia|]. rewrite Hq. reflexivity.
Qed.

(** X20: advancing.  With no heart left [nextQuestion] only shows the
    game-over screen.  Otherwise (for a bank with distinct capitals, four
    facts and an easy fact) it raises the question number by one, installs
    a valid question generated for the new number, puts the clock back to
    the duration of the mode and clears the answer, the feedback and the
    recorded capital, while score, hearts and combo are kept; on the game
    screen the commit then starts the interval with the latch clear. *)
Theorem nextQuestion_advances (bank : list CountryCapital.t) (r : Random)
    (s : State) :
  wellFormedBank bank ->
  (hearts s <= 0 -> nextQuestion bank r s = Some (setScreen gameOver s))
  /\ (0 < hearts s ->
      exists q,
        generateQuestion bank r (currentDifficulty s) (questionNumber s + 1)
        = Some q
        /\ validQuestion q
        /\ nextQuestion bank r s =
           Some {| screen := screen s; speedMode := speedMode s;
                   score := score s; hearts := hearts s;
                   questionNumber := questionNumber s + 1;
                   combo := combo s;
                   timeLeft := getTimeByDifficulty (currentDifficulty s);
                   currentDifficulty := currentDifficulty s;
                   currentQuestion := Some q; selectedAnswer := None;
                   isAnswered := false; feedback := "";
                   correctAnswer := None; timerRef := timerRef s;
                   timeoutHandledRef := timeoutHandledRef s;
                   scheduled := scheduled s |}
        /\ (screen s = game ->
            forall s', nextQuestion bank r s = Some s' ->
                       timerRef (timerEffect s') = true
                       /\ timeoutHandledRef (timerEffect s') = false)).
Proof.
  intros Hwf. split.
  - intros Hh. unfold nextQuestion.
    destruct (Z.leb_spec (hearts s) 0); [reflexivity | lia].
  - intros Hh.
    destruct (generateQuestion_wellFormed bank r (currentDifficulty s)
                (questionNumber s + 1) Hwf) as (q & Hq & Hv).
    exists q. split; [exact Hq|]. split; [exact Hv|].
    rewrite (nextQuestion_Some bank r s q Hh Hq).
    split; [reflexivity|].
    intros Hgame s' [= <-]. unfold timerEffect, armed. simpl.
    rewrite Hgame. simpl. split; reflexivity.
Qed.

Lemma nextQuestion_advances_witness :
  nextQuestion sampleBank sampleRandom finishedGame
  = Some (setScreen gameOver finishedGame)
  /\ exists q,
       generateQuestion sampleBank sampleRandom
         (currentDifficulty answeredRound) (questionNumber answeredRound + 1)
       = Some q
       /\ validQuestion q
       /\ questionNumber
          <$> nextQuestion sampleBank sampleRandom answeredRound
          = Some 2.
Proof.
  pose proof (nextQuestion_advances sampleBank sampleRandom finishedGame
                sampleBank_wellFormed) as (Hover & _).
  pose proof (nextQuestion_advances sampleBank sampleRandom answeredRound
                sampleBank_wellFormed) as (_ & Hnext).
  split; [apply Hover; vm_compute; discriminate|].
  destruct Hnext as (q & Hq & Hv & Heq & _); [vm_compute; reflexivity|].
  exists q. split; [exact Hq|]. split; [exact Hv|].
  rewrite Heq. vm_compute. reflexivity.
Defined.

Lemma step_fire_after_miss (bank : list CountryCapital.t) (r : Random)
    (m : State) (d1 d2 : Z) :
  wellFormedBank bank ->
  screen m = game ->
  scheduled m = [if hearts m <=? 0 then (CallSetScreenGameOver, d1)
                 else (CallNextQuestion, d2)] ->
  exists s',
    step bank (EvFire 0 r) m = Some s'
    /\ hearts s' = hearts m /\ score s' = score m /\ combo s' = combo m
    /\ scheduled s' = []
    /\ (hearts m <= 0 ->
        screen s' = gameOver /\ questionNumber s' = questionNumber m
        /\ timerRef s' = false /\ isAnswered s' = isAnswered m)
    /\ (0 < hearts m ->
        freshRound (currentDifficulty m) s'
        /\ questionNumber s' = questionNumber m + 1).
Proof.
  intros Hwf Hgame Hsched. unfold step, handle, fire. rewrite Hsched.
  destruct (Z.leb_spec (hearts m) 0) as [Hdead|Halive]; simpl.
  - eexists. split; [reflexivity|].
    unfold timerEffect, armed. simpl.
    repeat split; try reflexivity; lia.
  - destruct (generateQuestion_wellFormed bank r (currentDifficulty m)
                (questionNumber m + 1) Hwf) as (q & Hq & _).
    rewrite (nextQuestion_Some bank r _ q) by (simpl; assumption).
    simpl. eexists. split; [reflexivity|].
    unfold timerEffect, armed. simpl. rewrite Hgame. simpl.
    repeat split; try reflexivity; try lia. eauto.
Qed.

(** X21: a wrong answer and the callback it schedules.  From an
    unanswered round on the game screen with no callback pending, a wrong
    answer followed by its callback costs one heart, clears the combo and
    leaves the score as it was; if that was the last heart the game-over
    screen is shown with the interval stopped, otherwise the next question
    is asked in a fresh round. *)
Theorem wrong_answer_then_callback (bank : list CountryCapital.t) (r : Random)
    (s : State) (answer : string) :
  wellFormedBank bank ->
  screen s = game -> isAnswered s = false -> scheduled s = [] ->
  Some answer <> Question.capital <$> currentQuestion s ->
  exists s',
    run bank [EvAnswer answer; EvFire 0 r] s = Some s'
    /\ hearts s' = hearts s - 1 /\ score s' = score s /\ combo s' = 0
    /\ scheduled s' = []
    /\ (hearts s <= 1 ->
        screen s' = gameOver /\ questionNumber s' = questionNumber s
        /\ timerRef s' = false)
    /\ (1 < hearts s ->
        freshRound (currentDifficulty s) s'
        /\ questionNumber s' = questionNumber s + 1).
Proof.
  intros Hwf Hgame Ha Hsched Hne. cbn [run].
  unfold step at 1. cbn [handle fmap option_fmap option_map].
  rewrite (handleAnswer_wrong answer s Ha Hne).
  rewrite timerEffect_answered by reflexivity.
  match goal with |- context [step bank (EvFire 0 r) ?st] => set (m := st) end.
  destruct (step_fire_after_miss bank r m (delayOf s) (wrongDelayOf s) Hwf)
    as (s' & Hstep & Hh & Hsc & Hco & Hsd & Hdead & Halive).
  { exact Hgame. }
  { subst m. simpl. rewrite Hsched. unfold afterMiss. reflexivity. }
  exists s'. rewrite Hstep. split; [reflexivity|].
  subst m. simpl in *.
  split; [exact Hh|]. split; [exact Hsc|]. split; [exact Hco|].
  split; [exact Hsd|]. split.
  - intros Hlast. destruct Hdead as (? & ? & ? & _); [lia | auto].
  - intros Hmore. apply Halive. lia.
Qed.

Lemma wrong_answer_then_callback_witness :
  exists s',
    run sampleBank [EvAnswer "Berlin"; EvFire 0 firstRandom] startedRound
    = Some s'
    /\ hearts s' = hearts startedRound - 1
    /\ freshRound easy s'
    /\ questionNumber s' = 2.
Proof.
  assert (Hgame : screen startedRound = game) by (vm_compute; reflexivity).
  assert (Ha : isAnswered startedRound = false) by (vm_compute; reflexivity).
  assert (Hsd : scheduled startedRound = []) by (vm_compute; reflexivity).
  assert (Hne : Some "Berlin"
                <> Question.capital <$> currentQuestion startedRound)
    by (vm_compute; discriminate).
  destruct (wrong_answer_then_callback sampleBank firstRandom startedRound
              "Berlin" sampleBank_wellFormed Hgame Ha Hsd Hne)
    as (s' & Hrun & Hh & _ & _ & _ & _ & Halive).
  exists s'. split; [exact Hrun|]. split; [exact Hh|].
  apply Halive. vm_compute. reflexivity.
Defined.

(** X22: a correct answer and the callback it schedules.  From an
    unanswered round on the game screen with a heart left and no callback
    pending, the correct answer followed by its callback leads to a fresh
    round for the next question, with the award added to the score, the
    combo one longer and the hearts unchanged. *)
Theorem correct_answer_then_callback (bank : list CountryCapital.t)
    (r : Random) (s : State) (q : Question.t) :
  wellFormedBank bank ->
  screen s = game -> isAnswered s = false -> scheduled s = [] ->
  0 < hearts s ->
  currentQuestion s = Some q ->
  exists s',
    run bank [EvAnswer (Question.capital q); EvFire 0 r] s = Some s'
    /\ freshRound (currentDifficulty s) s'
    /\ questionNumber s' = questionNumber s + 1
    /\ hearts s' = hearts s
    /\ combo s' = combo s + 1
    /\ score s' = score s + finalPoints (Question.difficulty q)
                                         (currentDifficulty s) (combo s + 1).
Proof.
  intros Hwf Hgame Ha Hsched Hh Hq. cbn [run].
  unfold step at 1. cbn [handle fmap option_fmap option_map].
  rewrite (handleAnswer_correct _ s q Ha Hq eq_refl).
  rewrite timerEffect_answered by reflexivity.
  unfold step, handle, fire. simpl. rewrite Hsched. simpl.
  destruct (generateQuestion_wellFormed bank r (currentDifficulty s)
              (questionNumber s + 1) Hwf) as (q' & Hq' & _).
  rewrite (nextQuestion_Some bank r _ q') by (simpl; assumption).
  simpl. eexists. split; [reflexivity|].
  unfold timerEffect, armed. simpl. rewrite Hgame. simpl.
  split; [|repeat split].
  unfold freshRound. simpl. repeat split; eauto.
Qed.

Lemma correct_answer_then_callback_witness :
  exists s',
    run sampleBank [EvAnswer "Tokyo"; EvFire 0 firstRandom] startedRound
    = Some s'
    /\ freshRound easy s'
    /\ questionNumber s' = 2 /\ hearts s' = 3 /\ combo s' = 1
    /\ score s' = 10.
Proof.
  assert (Hgame : screen startedRound = game) by (vm_compute; reflexivity).
  assert (Ha : isAnswered startedRound = false) by (vm_compute; reflexivity).
  assert (Hsd : scheduled startedRound = []) by (vm_compute; reflexivity).
  assert (Hpos : 0 < hearts startedRound) by (vm_compute; reflexivity).
  destruct (correct_answer_then_callback sampleBank firstRandom startedRound
              tokyoQuestion sampleBank_wellFormed Hgame Ha Hsd Hpos
              startedRound_question)
    as (s' & Hrun & Hfresh & Hqn & Hh & Hco & Hsc).
  exists s'. split; [exact Hrun|]. split; [exact Hfresh|].
  split; [exact Hqn|]. split; [exact Hh|]. split; [exact Hco|].
  rewrite Hsc. vm_compute. reflexivity.
Defined.

Lemma ticks_time_out (bank : list CountryCapital.t) (s : State) :
  armed s = true -> timerRef s = true -> timeoutHandledRef s = false ->
  1 <= timeLeft s ->
  run bank (replicate (Z.to_nat (timeLeft s)) EvTick) s
  = Some (mkState (screen s) (speedMode s) (score s) (hearts s - 1)
            (questionNumber s) 0 0 (currentDifficulty s) (currentQuestion s)
            (selectedAnswer s) true "시간 초과입니다!"
            (Question.capital <$> currentQuestion s) false true
            (scheduled s ++ [afterMiss s])).
Proof.
  intros Harmed Ht Hl Hone.
  apply armed_true in Harmed as Hparts. destruct Hparts as (_ & _ & Ha).
  replace (Z.to_nat (timeLeft s))
    with (Z.to_nat (timeLeft s - 1) + 1)%nat by lia.
  rewrite replicate_add, run_app.
  rewrite ticks_count_down by (assumption || lia). cbn [mbind option_bind].
  rewrite Z2Nat.id by lia. cbn [replicate run].
  rewrite step_tick_timeout by (simpl; assumption || lia).
  reflexivity.
Qed.

Lemma idle_round_run (bank : list CountryCapital.t) (mode : Difficulty)
    (r : Random) (s : State) :
  wellFormedBank bank -> freshRound mode s ->
  exists s',
    run bank (idleRound mode r) s = Some s'
    /\ hearts s' = hearts s - 1 /\ score s' = score s
    /\ (1 < hearts s -> freshRound mode s')
    /\ (hearts s <= 1 ->
        screen s' = gameOver /\ scheduled s' = [] /\ timerRef s' = false).
Proof.
  intros Hwf (Hgame & Hq & Ha & Ht & Hl & Hmode & Htime & Hsched).
  pose proof (getTimeByDifficulty_range mode) as Hrange.
  assert (Harmed : armed s = true) by (apply armed_true; auto).
  unfold idleRound. rewrite run_app, <- Htime.
  rewrite ticks_time_out by (assumption || lia). cbn [mbind option_bind run].
  match goal with |- context [step bank (EvFire 0 r) ?st] => set (m := st) end.
  destruct (step_fire_after_miss bank r m (delayOf s) (wrongDelayOf s) Hwf)
    as (s' & Hstep & Hh & Hsc & _ & Hsd & Hdead & Halive).
  { exact Hgame. }
  { subst m. simpl. rewrite Hsched. unfold afterMiss. reflexivity. }
  exists s'. rewrite Hstep. split; [reflexivity|]. subst m. simpl in *.
  split; [exact Hh|]. split; [exact Hsc|]. split.
  - intros Hmore. rewrite <- Hmode. apply Halive. lia.
  - intros Hlast. destruct Hdead as (? & _ & ? & _); [lia | auto].
Qed.

(** X23: a player who never answers.  Starting a game (for a bank with
    distinct capitals, four facts and an easy fact) and then letting the
    clock run out in three rounds, each followed by its callback, ends on
    the game-over screen with no heart, no point, no interval and no
    callback left; and the game-over effect then leaves the high score
    and the storage untouched. *)
Theorem idle_game_ends_after_three_timeouts (bank : list CountryCapital.t)
    (mode : Difficulty) (r0 r1 r2 r3 : Random) (s : State) (shown : number)
    (st : Storage) :
  wellFormedBank bank ->
  scheduled s = [] ->
  exists s',
    run bank (EvStartGame r0 mode
              :: idleRound mode r1 ++ idleRound mode r2 ++ idleRound mode r3)
        s = Some s'
    /\ screen s' = gameOver /\ hearts s' = 0 /\ score s' = 0
    /\ timerRef s' = false /\ scheduled s' = []
    /\ gameOverEffect s' shown st = (shown, st).
Proof.
  intros Hwf Hsched.
  destruct (generateQuestion_wellFormed bank r0 mode 1 Hwf) as (q0 & Hq0 & _).
  assert (Hstart : step bank (EvStartGame r0 mode) s
                   = Some (mkState game (speedMode s) 0 3 1 0
                             (getTimeByDifficulty mode) mode (Some q0) None
                             false "" None true false [])).
  { unfold step, handle. rewrite (startGame_Some bank r0 mode s q0 Hq0).
    cbn [fmap option_fmap option_map]. f_equal.
    unfold timerEffect, armed. simpl. by rewrite Hsched. }
  match type of Hstart with _ = Some ?st => set (s0 := st) in * end.
  assert (Hfresh0 : freshRound mode s0).
  { unfold freshRound. subst s0. simpl. repeat split; eauto. }
  cbn [run]. rewrite Hstart. rewrite run_app.
  destruct (idle_round_run bank mode r1 s0 Hwf Hfresh0)
    as (s1 & Hrun1 & Hh1 & Hsc1 & Hfresh1 & _).
  rewrite Hrun1. cbn [mbind option_bind]. rewrite run_app.
  assert (Hh0 : hearts s0 = 3) by reflexivity.
  assert (Hsc0 : score s0 = 0) by reflexivity.
  destruct (idle_round_run bank mode r2 s1 Hwf) as
    (s2 & Hrun2 & Hh2 & Hsc2 & Hfresh2 & _); [apply Hfresh1; lia|].
  rewrite Hrun2. cbn [mbind option_bind].
  destruct (idle_round_run bank mode r3 s2 Hwf) as
    (s3 & Hrun3 & Hh3 & Hsc3 & _ & Hover); [apply Hfresh2; lia|].
  rewrite Hrun3. exists s3. split; [reflexivity|].
  destruct Hover as (Hscreen & Hsd & Htimer); [lia|].
  split; [exact Hscreen|]. split; [lia|]. split; [lia|].
  split; [exact Htimer|]. split; [exact Hsd|].
  unfold gameOverEffect. replace (score s3) with 0 by lia.
  by rewrite andb_false_r.
Qed.

Lemma idle_game_ends_after_three_timeouts_witness :
  exists s',
    run sampleBank
        (EvStartGame sampleRandom hard
         :: idleRound hard firstRandom ++ idleRound hard sampleRandom
            ++ idleRound hard firstRandom)
        initialState = Some s'
    /\ screen s' = gameOver /\ hearts s' = 0 /\ score s' = 0
    /\ timerRef s' = false /\ scheduled s' = []
    /\ gameOverEffect s' (Int 180) (storageWith "180")
       = (Int 180, storageWith "180").
Proof.
  apply (idle_game_ends_after_three_timeouts sampleBank hard sampleRandom
           firstRandom sampleRandom firstRandom initialState (Int 180)
           (storageWith "180") sampleBank_wellFormed).
  reflexivity.
Defined.

(** ** Pending callbacks *)

Lemma timerEffect_scheduled (s : State) :
  scheduled (timerEffect s) = scheduled s.
Proof. unfold timerEffect. destruct (armed s); reflexivity. Qed.

Lemma delete_out_of_range {A} (l : list A) (k : nat) :
  l !! k = None -> delete k l = l.
Proof.
  intros Hk. apply lookup_ge_None in Hk.
  rewrite delete_take_drop, take_ge, drop_ge by lia. apply app_nil_r.
Qed.

(** X24: nothing but its own firing removes a pending callback.  Firing
    the k-th callback removes exactly that one; every other event (an
    answer, a tick, the back button, a change of screen, starting a new
    game) leaves all pending callbacks in place, in order, adding at most
    new ones behind them. *)
Theorem callbacks_are_never_cancelled (bank : list CountryCapital.t)
    (ev : Event) (s s' : State) :
  step bank ev s = Some s' ->
  match ev with
  | EvFire k _ => scheduled s' = delete k (scheduled s)
  | _ => scheduled s `prefix_of` scheduled s'
  end.
Proof.
  unfold step. intros Hstep.
  destruct (handle bank ev s) as [s1|] eqn:Hh; [|discriminate].
  injection Hstep as <-. rewrite timerEffect_scheduled.
  destruct ev; simpl in Hh.
  - unfold startGame in Hh.
    destruct (generateQuestion _ _ _ _); [|discriminate].
    by injection Hh as <-.
  - injection Hh as <-.
    destruct (handleAnswer_cases answer s); simpl;
      [reflexivity | by eexists | by eexists].
  - injection Hh as <-. destruct (timerRef s); [|reflexivity].
    destruct (tick_cases s); simpl;
      [reflexivity | reflexivity | by eexists | reflexivity].
  - unfold fire in Hh. destruct (scheduled s !! k) as [[[] ?]|] eqn:Hk.
    + unfold nextQuestion in Hh. simpl in Hh.
      destruct (hearts s <=? 0); [by injection Hh as <-|].
      destruct (generateQuestion _ _ _ _); [|discriminate].
      by injection Hh as <-.
    + by injection Hh as <-.
    + injection Hh as <-. by rewrite delete_out_of_range.
  - injection Hh as <-. unfold handleBack.
    repeat case_match; try rewrite clearTimer_eq; reflexivity.
  - by injection Hh as <-.
  - by injection Hh as <-.
  - unfold renderGame in Hh.
    destruct (bool_decide (screen s = game)); [|by injection Hh as <-].
    destruct (currentQuestion s); [by injection Hh as <-|].
    destruct (generateQuestion _ _ _ _); [|discriminate].
    by injection Hh as <-.
Qed.

Lemma callbacks_are_never_cancelled_witness :
  scheduled answeredRound
    `prefix_of` scheduled (timerEffect (handleBack answeredRound)).
Proof.
  apply (callbacks_are_never_cancelled sampleBank EvBack answeredRound
           (timerEffect (handleBack answeredRound))).
  reflexivity.
Defined.

(** What this allows: the callback of an abandoned round advances the
    game started after it.  A wrong answer, the back button, a new game,
    and then the old callback: the new game is at question 2 although no
    answer was given in it. *)
Example stale_callback_advances_the_new_game :
  (fun s => (screen s, questionNumber s, hearts s, isAnswered s))
    <$> run sampleBank
          [EvAnswer "Berlin"; EvBack; EvStartGame sampleRandom medium;
           EvFire 0 firstRandom] startedRound
  = Some (game, 2, 3, false).
Proof. vm_compute. reflexivity. Qed.

(** X25: every resolution schedules exactly one callback.  In an
    unanswered round an answer, and likewise the timeout, appends one
    callback to the pending ones: the game-over callback when a miss takes
    the last heart, the next-question callback otherwise.  In speed mode
    its delay is always 500 ms; otherwise 1500 ms after a correct answer
    and before game over, and 2000 ms after a miss that leaves a heart. *)
Theorem resolution_schedules_one_callback (answer : string) (s : State) :
  isAnswered s = false ->
  let missed := bool_decide (Some answer <> Question.capital <$> currentQuestion s) in
  let last := hearts s <=? 1 in
  scheduled (handleAnswer answer s)
  = scheduled s
    ++ [(if missed && last then CallSetScreenGameOver else CallNextQuestion,
         if speedMode s then 500
         else if missed && negb last then 2000 else 1500)]
  /\ (timeoutHandledRef s = false -> timeLeft s = 1 ->
      scheduled (tick s)
      = scheduled s
        ++ [(if last then CallSetScreenGameOver else CallNextQuestion,
             if speedMode s then 500 else if last then 1500 else 2000)]).
Proof.
  intros Ha missed last.
  assert (Hmiss : afterMiss s
                  = (if last then CallSetScreenGameOver else CallNextQuestion,
                     if speedMode s then 500
                     else if last then 1500 else 2000)).
  { unfold afterMiss, delayOf, wrongDelayOf. subst last.
    destruct (Z.leb_spec (hearts s - 1) 0), (Z.leb_spec (hearts s) 1);
      try lia; destruct (speedMode s); reflexivity. }
  split.
  - subst missed. case_bool_decide as Hne.
    + rewrite (handleAnswer_wrong answer s Ha Hne). simpl. rewrite Hmiss.
      destruct last; reflexivity.
    + assert (Heq : Some answer = Question.capital <$> currentQuestion s)
        by (destruct (decide (Some answer
                              = Question.capital <$> currentQuestion s));
            [assumption | contradiction]).
      destruct (currentQuestion s) as [q|] eqn:Hq; [|discriminate].
      injection Heq as Heq.
      rewrite (handleAnswer_correct answer s q Ha Hq Heq). simpl.
      unfold delayOf. reflexivity.
  - intros Hl Ht. rewrite (tick_timeout s Ha Hl) by lia. simpl.
    by rewrite Hmiss.
Qed.

Lemma resolution_schedules_one_callback_witness :
  scheduled (handleAnswer "Paris" sampleRound)
  = [(CallSetScreenGameOver, 1500)]
  /\ scheduled (tick sampleRound) = [(CallSetScreenGameOver, 1500)].
Proof.
  pose proof (resolution_schedules_one_callback "Paris" sampleRound eq_refl)
    as (Hanswer & Htimeout).
  cbv zeta in Hanswer, Htimeout. split.
  - rewrite Hanswer. vm_compute. reflexivity.
  - rewrite Htimeout by reflexivity. vm_compute. reflexivity.
Defined.

(** ** Browser history and help pages *)

Lemma setScreen_same (s : State) : setScreen (screen s) s = s.
Proof. destruct s; reflexivity. Qed.

(** X26: the [popstate] listener keeps the screen and the history in
    step.  Whatever entry the browser moved to and whatever screen was
    shown, the listener changes nothing but the screen, pushes at most one
    entry, and afterwards the entry that is current names the screen that
    is shown. *)
Theorem handlePopState_keeps_screen_and_history_in_step
    (entry : option string) (s : State) :
  let '(s', pushed) := handlePopState entry s in
  s' = setScreen (screen s') s
  /\ (length pushed <= 1)%nat
  /\ currentEntry entry pushed = Some (screenName (screen s')).
Proof.
  unfold handlePopState.
  destruct (screen s) eqn:Hscreen;
    repeat (case_bool_decide; subst; simpl);
    try (destruct entry as [name|]; simpl;
         repeat (case_bool_decide; subst; simpl));
    repeat split; try lia; try congruence;
    try (symmetry; apply setScreen_same);
    rewrite Hscreen; reflexivity.
Qed.

(** X27: where the [popstate] listener can lead.  It never shows the
    game-over screen; it leaves the game screen whenever that was shown,
    for the difficulty or the main screen; it shows the game screen only
    when coming from game over to an entry named game; from the main
    screen it stays there; and moving to the bottom entry named dummy
    always shows the main screen and pushes a main entry on top. *)
Theorem handlePopState_destinations (entry : option string) (s : State) :
  let s' := (handlePopState entry s).1 in
  let pushed := (handlePopState entry s).2 in
  screen s' <> gameOver
  /\ (screen s = game -> screen s' = difficulty \/ screen s' = main)
  /\ (screen s' = game -> screen s = gameOver /\ entry = Some "game")
  /\ (screen s = main -> screen s' = main)
  /\ (entry = Some "dummy" -> screen s' = main /\ pushed = ["main"]).
Proof.
  unfold handlePopState.
  destruct (screen s) eqn:Hscreen;
    repeat (case_bool_decide; subst; simpl);
    try (destruct entry as [name|]; simpl;
         repeat (case_bool_decide; subst; simpl));
    repeat split; intros; try discriminate; try congruence; auto.
Qed.

Lemma handlePopState_destinations_witness :
  screen (handlePopState (Some "difficulty") startedRound).1 = difficulty
  /\ (handlePopState (Some "dummy") startedRound).2 = ["main"].
Proof.
  pose proof (handlePopState_destinations (Some "difficulty") startedRound)
    as (_ & Hleave & _).
  pose proof (handlePopState_destinations (Some "dummy") startedRound)
    as (_ & _ & _ & _ & Hdummy).
  cbv zeta in Hleave, Hdummy. split.
  - destruct Hleave as [Hd|Hm]; [vm_compute; reflexivity | exact Hd |].
    exfalso. revert Hm. vm_compute. discriminate.
  - apply Hdummy. reflexivity.
Defined.

(** X28: paging through the help.  On the eight pages the two arrows
    move one page forward and one page back around the circle: each keeps
    the page number within 0..7, each undoes the other, and eight steps in
    one direction lead back to the page one started from. *)
Theorem help_pages_wrap_around (helpPage : Z) :
  0 <= helpPage < helpPagesLength ->
  handleHelpNext helpPage = (helpPage + 1) mod 8
  /\ handleHelpPrev helpPage = (helpPage - 1) mod 8
  /\ 0 <= handleHelpNext helpPage < 8
  /\ 0 <= handleHelpPrev helpPage < 8
  /\ handleHelpPrev (handleHelpNext helpPage) = helpPage
  /\ handleHelpNext (handleHelpPrev helpPage) = helpPage
  /\ Nat.iter 8 handleHelpNext helpPage = helpPage
  /\ Nat.iter 8 handleHelpPrev helpPage = helpPage.
Proof.
  unfold helpPagesLength. intros Hp.
  assert (Hcases : helpPage = 0 \/ helpPage = 1 \/ helpPage = 2
                   \/ helpPage = 3 \/ helpPage = 4 \/ helpPage = 5
                   \/ helpPage = 6 \/ helpPage = 7) by lia.
  repeat (destruct Hcases as [->|Hcases]); try subst helpPage;
    vm_compute; repeat split; congruence.
Qed.

Lemma help_pages_wrap_around_witness :
  handleHelpNext 7 = 0 /\ handleHelpPrev 0 = 7.
Proof.
  assert (H7 : 0 <= 7 < helpPagesLength) by (unfold helpPagesLength; lia).
  assert (H0 : 0 <= 0 < helpPagesLength) by (unfold helpPagesLength; lia).
  pose proof (help_pages_wrap_around 7 H7) as (Hnext & _).
  pose proof (help_pages_wrap_around 0 H0) as (_ & Hprev & _).
  split.
  - rewrite Hnext. reflexivity.
  - rewrite Hprev. reflexivity.
Defined.
